(** * Orchestration patterns of geepers-skills: a shallow embedding

    The development follows the Python sources module by module:

    - [Py]: the few pieces of Python semantics the code relies on
      (exceptions, [try]/[except], f-string rendering of integers, slices,
      [range], [str.strip], [str.split]);
    - [ParallelExec]: [parallel_agent_execution.py];
    - [Hierarchical]: [hierarchical_agent_coordination.py] and the agents of
      [cascade.py];
    - [Decomposition]: [task_decomposition_pattern.py];
    - [Phased]: [phased_workflow_orchestrator.py];
    - [DataModels]: [multi_agent_data_models.py].

    Wall-clock readings ([time.time()], [datetime.now()]) and random
    identifiers ([uuid.uuid4()]) are left out of the records, and so are
    the configuration fields and object attributes that the code writes but
    never reads.  Whatever the program cannot decide by itself (what a unit
    of work does, whether it overruns its deadline, what a callback or a
    language model answers) is an oracle argument.  Of the lines the code
    prints or logs, the event logs keep those that tell one path from
    another. *)

From Stdlib Require Import ZArith QArith String Ascii List Lia DecimalString.
From stdpp Require Import base option list gmap strings.

#[local] Open Scope Z_scope.

(* ===================================================================== *)
(** * Python semantics used by the sources *)
(* ===================================================================== *)

Module Py.

(** Exceptions.  [asyncio.TimeoutError] is the only class the sources
    single out in an [except] clause; every other exception is kept with
    its [str()]. *)
Inductive Exn : Type :=
| TimeoutError
| Exception (msg : string).

Definition str_of_exn (e : Exn) : string :=
  match e with
  | TimeoutError => ""
  | Exception msg => msg
  end.

Inductive Res (A : Type) : Type :=
| Ok (a : A)
| Raise (e : Exn).
Arguments Ok {A} a.
Arguments Raise {A} e.

(** Effectful code: a computation appends the events it performs to a
    log and either returns or raises.  The log survives an exception. *)
Definition M (E A : Type) : Type := list E → Res A * list E.

Definition ret {E A} (a : A) : M E A := λ log, (Ok a, log).

Definition bind {E A B} (c : M E A) (k : A → M E B) : M E B :=
  λ log, match c log with
         | (Ok a, log') => k a log'
         | (Raise e, log') => (Raise e, log')
         end.

Definition raise {E A} (e : Exn) : M E A := λ log, (Raise e, log).

Definition emit {E} (ev : E) : M E unit := λ log, (Ok tt, log ++ [ev]).

(** [try: body except Exception as e: handler e] *)
Definition try_catch {E A} (body : M E A) (handler : Exn → M E A) : M E A :=
  λ log, match body log with
         | (Ok a, log') => (Ok a, log')
         | (Raise e, log') => handler e log'
         end.

(** The outcome of a coroutine kept as a value, as
    [asyncio.gather(..., return_exceptions=True)] does for each of its
    arguments. *)
Definition capture {E A} (c : M E A) : M E (Res A) :=
  λ log, match c log with (r, log') => (Ok r, log') end.

Definition run {E A} (c : M E A) : Res A * list E := c [].

(** The outcome of a call into code outside these modules. *)
Definition lift {E A} (r : Res A) : M E A :=
  match r with
  | Ok a => ret a
  | Raise e => raise e
  end.

(** [await asyncio.gather(..., return_exceptions=True)]: one outcome per
    coroutine, in the order of the arguments.  The coroutines are run
    here one after the other; each outcome is fixed by the oracles, so
    only the order of the logged events depends on that choice. *)
Fixpoint gather {E A} (cs : list (M E A)) : M E (list (Res A)) :=
  match cs with
  | [] => ret []
  | c :: cs' =>
      bind (capture c) (λ r, bind (gather cs') (λ rs, ret (r :: rs)))
  end.

(** [await asyncio.gather(...)] without [return_exceptions]: an exception
    of a coroutine is raised to the caller. *)
Fixpoint gather_raising {E A} (cs : list (M E A)) : M E (list A) :=
  match cs with
  | [] => ret []
  | c :: cs' =>
      bind c (λ r, bind (gather_raising cs') (λ rs, ret (r :: rs)))
  end.

(** [f"{i}"] for an integer. *)
Definition str_of_Z (z : Z) : string := NilZero.string_of_int (Z.to_int z).

(** [range(n)] *)
Definition range (n : Z) : list Z := Z.of_nat <$> seq 0 (Z.to_nat n).

(** [range(start, stop, step)] for a positive step: the values are
    produced one by one while they stay below [stop]. *)
Fixpoint range_from (fuel : nat) (i stop step : Z) : list Z :=
  match fuel with
  | O => []
  | S fuel' => if i <? stop then i :: range_from fuel' (i + step) stop step else []
  end.
Definition range_step (start stop step : Z) : list Z :=
  range_from (Z.to_nat (stop - start)) start stop step.

(** [xs[:k]]: a negative bound counts from the end. *)
Definition slice_to {A} (xs : list A) (k : Z) : list A :=
  if 0 <=? k then take (Z.to_nat k) xs
  else take (Z.to_nat (Z.of_nat (length xs) + k)) xs.

(** [xs[i:j]] for non-negative bounds. *)
Definition slice {A} (xs : list A) (i j : Z) : list A :=
  take (Z.to_nat (j - i)) (drop (Z.to_nat i) xs).

(** [len(xs)] *)
Definition len {A} (xs : list A) : Z := Z.of_nat (length xs).

(** ** Strings

    A [string] stands for a Python [str] whose code points are all below
    256; a character is its code point. *)

(** [c.isspace()] *)
Definition is_space (c : ascii) : bool :=
  let n := nat_of_ascii c in
  ((9 <=? n) && (n <=? 13) || (28 <=? n) && (n <=? 32)
   || (n =? 133) || (n =? 160))%nat.

(** [c.isdigit()] *)
Definition is_digit (c : ascii) : bool :=
  let n := nat_of_ascii c in
  ((48 <=? n) && (n <=? 57) || (n =? 178) || (n =? 179) || (n =? 185))%nat.

Fixpoint lstrip (s : string) : string :=
  match s with
  | EmptyString => EmptyString
  | String c s' => if is_space c then lstrip s' else s
  end.

Definition rstrip (s : string) : string := String.rev (lstrip (String.rev s)).

(** [s.strip()] *)
Definition strip (s : string) : string := rstrip (lstrip s).

(** [c in s] for a single character [c] *)
Fixpoint contains (c : ascii) (s : string) : bool :=
  match s with
  | EmptyString => false
  | String c' s' => if decide (c = c') then true else contains c s'
  end.

(** [s.split(c, 1)[1]], for [s] that contains [c]: what follows the first
    occurrence of [c]. *)
Fixpoint after_first (c : ascii) (s : string) : string :=
  match s with
  | EmptyString => EmptyString
  | String c' s' => if decide (c = c') then s' else after_first c s'
  end.

(** [s.split(c)]: the pieces between the occurrences of [c]; [cur] holds
    the current piece, reversed. *)
Fixpoint split_go (c : ascii) (cur s : string) : list string :=
  match s with
  | EmptyString => [String.rev cur]
  | String c' s' =>
      if decide (c = c') then String.rev cur :: split_go c EmptyString s'
      else split_go c (String c' cur) s'
  end.
Definition split (c : ascii) (s : string) : list string :=
  split_go c EmptyString s.

(** [s[n:]] *)
Fixpoint drop_chars (n : nat) (s : string) : string :=
  match n, s with
  | O, _ => s
  | S n', String _ s' => drop_chars n' s'
  | S _, EmptyString => EmptyString
  end.

(** [len(s)] *)
Definition str_len (s : string) : Z := Z.of_nat (String.length s).

(** [s.startswith(prefix)], for a prefix given by its code points.  A
    code point of 256 or more occurs in no [string], so a prefix that
    holds one matches nothing. *)
Fixpoint startswith (prefix : list N) (s : string) : bool :=
  match prefix, s with
  | [], _ => true
  | p :: prefix', String c s' => (N_of_ascii c =? p)%N && startswith prefix' s'
  | _ :: _, EmptyString => false
  end.

(** [sep.join(parts)] *)
Fixpoint join (sep : string) (parts : list string) : string :=
  match parts with
  | [] => ""
  | [p] => p
  | p :: rest => p +:+ sep +:+ join sep rest
  end.

End Py.

Import Py.

#[global] Instance M_ret {E} : MRet (M E) := λ A, @Py.ret E A.
#[global] Instance M_bind {E} : MBind (M E) := λ A B k c, Py.bind c k.

(* ===================================================================== *)
(** * parallel_agent_execution.py *)
(* ===================================================================== *)

(** The semaphore of [ParallelExecutor] is built from [max_concurrent] when
    the executor is constructed; [asyncio.Semaphore] refuses a negative
    value, and with the value [0] no task is ever admitted.  The
    definitions describe an executor with [max_concurrent >= 1], where every
    task gets its turn. *)

Module ParallelExec.
Section Executor.

(** [T = TypeVar('T')]: the type of task results. *)
Context {T : Type}.

Inductive ExecutionStatus : Type :=
| PENDING | RUNNING | COMPLETED | FAILED | TIMEOUT | RETRYING.

(** The [value] of each member of the enumeration. *)
Definition ExecutionStatus_value (s : ExecutionStatus) : string :=
  match s with
  | PENDING => "pending"
  | RUNNING => "running"
  | COMPLETED => "completed"
  | FAILED => "failed"
  | TIMEOUT => "timeout"
  | RETRYING => "retrying"
  end.

#[global] Instance ExecutionStatus_eq_dec : EqDecision ExecutionStatus.
Proof. solve_decision. Defined.

(** The text of [ExecutionResult.error]: either
    [f"Timeout after {timeout_seconds}s"], kept with the number it renders,
    or the [str()] of an exception. *)
Inductive ErrorText : Type :=
| TimeoutAfter (seconds : Q)
| ErrorStr (s : string).

Record ExecutionResult : Type := {
  task_id : string;
  status : ExecutionStatus;
  result : option T;
  error : option ErrorText;
  retry_count : Z
}.

Definition set_retry_count (r : ExecutionResult) (n : Z) : ExecutionResult :=
  {| task_id := task_id r; status := status r; result := result r;
     error := error r; retry_count := n |}.

Record ParallelExecutionConfig : Type := {
  max_concurrent : Z;
  timeout_seconds : Q;
  enable_retries : bool;
  max_retries : Z;
  retry_delay : Q
}.

Definition default_config : ParallelExecutionConfig :=
  {| max_concurrent := 10; timeout_seconds := 60; enable_retries := true;
     max_retries := 2; retry_delay := 1 |}.

(** What awaiting the call of a task under [asyncio.wait_for] can do. *)
Inductive Outcome : Type :=
| Returns (v : T)
| Overruns
| Throws (msg : string).

(** A tuple of positional arguments. *)
Definition Args : Type := list string.

(** An async callable.  The sources call it once in the first pass and
    once in every retry round; the second argument is that round
    ([0] for the first pass, [k] for the [k]-th retry). *)
Definition Task : Type := Args → Z → Outcome.

(** The [data] argument of the progress callback. *)
Inductive CbData : Type :=
| NoData
| ResultData (v : T)
| ErrorData (msg : string).

(** [progress_callback(task_id, status, data)]; [Some msg] when the
    callback raises [Exception(msg)]. *)
Definition Callback : Type := string → ExecutionStatus → CbData → option string.

Inductive Event : Type :=
| Notified (id : string) (st : ExecutionStatus)
| Invoked (id : string)
| Slept (seconds : Q).

(** [if progress_callback: await progress_callback(task_id, status, data)] *)
Definition notify (cb : option Callback) (id : string) (st : ExecutionStatus)
    (data : CbData) : M Event unit :=
  match cb with
  | None => mret tt
  | Some f =>
      emit (Notified id st);;
      match f id st data with
      | Some msg => raise (Exception msg)
      | None => mret tt
      end
  end.

(** [await asyncio.wait_for(...)] around the call of the task *)
Definition wait_for (id : string) (o : Outcome) : M Event T :=
  emit (Invoked id);;
  match o with
  | Returns v => mret v
  | Overruns => raise TimeoutError
  | Throws msg => raise (Exception msg)
  end.

Definition _execute_with_limit_and_timeout (cfg : ParallelExecutionConfig)
    (id : string) (o : Outcome) (cb : option Callback) : M Event ExecutionResult :=
  notify cb id RUNNING NoData;;
  try_catch
    (v ← wait_for id o;
     notify cb id COMPLETED (ResultData v);;
     mret {| task_id := id; status := COMPLETED; result := Some v;
             error := None; retry_count := 0 |})
    (λ e, match e with
          | TimeoutError =>
              notify cb id TIMEOUT NoData;;
              mret {| task_id := id; status := TIMEOUT; result := None;
                      error := Some (TimeoutAfter (timeout_seconds cfg));
                      retry_count := 0 |}
          | Exception msg =>
              notify cb id FAILED (ErrorData msg);;
              mret {| task_id := id; status := FAILED; result := None;
                      error := Some (ErrorStr msg); retry_count := 0 |}
          end).

(** [xs[i]], which raises [IndexError] out of range. *)
Definition index {A} (xs : list A) (i : nat) : M Event A :=
  match xs !! i with
  | Some x => mret x
  | None => raise (Exception "list index out of range")
  end.

(** [xs[i] = x] *)
Definition assign {A} (xs : list A) (i : nat) (x : A) : M Event (list A) :=
  if decide (i < length xs)%nat then mret (<[i := x]> xs)
  else raise (Exception "list assignment index out of range").

(** An entry [(idx, task, args)] of [retry_tasks]. *)
Definition RetryTask : Type := nat * Task * Args.

(** The body of [for idx, task, args in retry_tasks] in
    [_execute_retries], for the retry round [retry_count]. *)
Fixpoint retry_pass (cfg : ParallelExecutionConfig) (cb : option Callback)
    (retry_count : Z) (retry_tasks : list RetryTask)
    (next_retry_tasks : list RetryTask) (results : list ExecutionResult)
    : M Event (list RetryTask * list ExecutionResult) :=
  match retry_tasks with
  | [] => mret (next_retry_tasks, results)
  | (idx, task, args) :: rest =>
      let id := "task_" +:+ str_of_Z (Z.of_nat idx) +:+ "_retry_"
                +:+ str_of_Z (retry_count + 1) in
      notify cb id RETRYING NoData;;
      r ← _execute_with_limit_and_timeout cfg id (task args (retry_count + 1)) cb;
      let retry_result := set_retry_count r (retry_count + 1) in
      if decide (status retry_result = COMPLETED) then
        results' ← assign results idx retry_result;
        retry_pass cfg cb retry_count rest next_retry_tasks results'
      else if retry_count <? max_retries cfg - 1 then
        retry_pass cfg cb retry_count rest
          (next_retry_tasks ++ [(idx, task, args)]) results
      else
        results' ← assign results idx retry_result;
        retry_pass cfg cb retry_count rest next_retry_tasks results'
  end.

(** [for retry_count in range(max_retries)] over the rounds still to run. *)
Fixpoint retry_rounds (cfg : ParallelExecutionConfig) (cb : option Callback)
    (rounds : list Z) (retry_tasks : list RetryTask)
    (results : list ExecutionResult) : M Event (list ExecutionResult) :=
  match rounds with
  | [] => mret results
  | retry_count :: rounds' =>
      match retry_tasks with
      | [] => mret results
      | _ :: _ =>
          emit (Slept (retry_delay cfg));;
          '(next_retry_tasks, results') ←
            retry_pass cfg cb retry_count retry_tasks [] results;
          retry_rounds cfg cb rounds' next_retry_tasks results'
      end
  end.

Definition _execute_retries (cfg : ParallelExecutionConfig)
    (retry_tasks : list RetryTask) (results : list ExecutionResult)
    (cb : option Callback) : M Event (list ExecutionResult) :=
  retry_rounds cfg cb (range (max_retries cfg)) retry_tasks results.

(** [for i, result in enumerate(results)] of [execute_parallel]. *)
Fixpoint process_results (cfg : ParallelExecutionConfig) (tasks : list Task)
    (task_args : list Args) (i : nat) (results : list (Res ExecutionResult))
    (processed_results : list ExecutionResult) (retry_tasks : list RetryTask)
    : M Event (list ExecutionResult * list RetryTask) :=
  match results with
  | [] => mret (processed_results, retry_tasks)
  | Raise e :: rest =>
      let error_result :=
        {| task_id := "task_" +:+ str_of_Z (Z.of_nat i); status := FAILED;
           result := None; error := Some (ErrorStr (str_of_exn e));
           retry_count := 0 |} in
      if enable_retries cfg then
        task ← index tasks i;
        args ← index task_args i;
        process_results cfg tasks task_args (S i) rest
          (processed_results ++ [error_result]) (retry_tasks ++ [(i, task, args)])
      else
        process_results cfg tasks task_args (S i) rest
          (processed_results ++ [error_result]) retry_tasks
  | Ok r :: rest =>
      process_results cfg tasks task_args (S i) rest
        (processed_results ++ [r]) retry_tasks
  end.

Definition execute_parallel (cfg : ParallelExecutionConfig) (tasks : list Task)
    (task_args : option (list Args)) (cb : option Callback)
    : M Event (list ExecutionResult) :=
  let task_args := default (replicate (length tasks) []) task_args in
  let execution_tasks :=
    imap (λ i '(task, args),
            _execute_with_limit_and_timeout cfg
              ("task_" +:+ str_of_Z (Z.of_nat i)) (task args 0) cb)
         (zip tasks task_args) in
  results ← gather execution_tasks;
  '(processed_results, retry_tasks) ←
    process_results cfg tasks task_args 0 results [] [];
  match retry_tasks with
  | [] => mret processed_results
  | _ :: _ => _execute_retries cfg retry_tasks processed_results cb
  end.

End Executor.
Arguments ExecutionResult : clear implicits.
Arguments Outcome : clear implicits.
Arguments Task : clear implicits.
Arguments Callback : clear implicits.
Arguments CbData : clear implicits.
End ParallelExec.

(* ===================================================================== *)
(** * hierarchical_agent_coordination.py and cascade.py *)
(* ===================================================================== *)

Module Hierarchical.

Definition nl : string := String "010"%char "".

Inductive TaskStatus : Type :=
| PENDING | RUNNING | COMPLETED | FAILED | CANCELLED.

Definition TaskStatus_value (s : TaskStatus) : string :=
  match s with
  | PENDING => "pending"
  | RUNNING => "running"
  | COMPLETED => "completed"
  | FAILED => "failed"
  | CANCELLED => "cancelled"
  end.

#[global] Instance TaskStatus_eq_dec : EqDecision TaskStatus.
Proof. solve_decision. Defined.

(** A value of a [metadata] dictionary. *)
Inductive MetaVal : Type :=
| MStr (s : string)
| MInt (z : Z).

(** [AgentResponse], without [task_id] (a random identifier),
    [execution_time_seconds] (a clock reading), and [artifacts] and
    [cost_estimate], which no agent of these modules fills in. *)
Record AgentResponse : Type := {
  agent_id : string;
  status : TaskStatus;
  content : string;
  citations : list string;
  metadata : option (gmap string MetaVal);
  error_message : option string
}.

(** A task's [context] dictionary.  The sources only ever store the five
    keys below in it, each with one type of value; a field is [None] when
    the key is absent.  [original_query] holds an optional string. *)
Record Context : Type := {
  belter_responses : option (list AgentResponse);
  drummer_responses : option (list AgentResponse);
  total_belter_count : option Z;
  original_query : option (option string);
  task_type : option string
}.

(** Truth value of a dictionary: it has a key. *)
Definition has_keys (ctx : Context) : bool :=
  bool_decide (is_Some (belter_responses ctx)) ||
  bool_decide (is_Some (drummer_responses ctx)) ||
  bool_decide (is_Some (total_belter_count ctx)) ||
  bool_decide (is_Some (original_query ctx)) ||
  bool_decide (is_Some (task_type ctx)).

(** [AgentTask], without [id] and [created_at]. *)
Record AgentTask : Type := {
  prompt : string;
  context : option Context;
  timeout_seconds : Z
}.

(** [OrchestratorConfig], with the fields the orchestrator reads. *)
Record OrchestratorConfig : Type := {
  num_agents : Z;
  enable_drummer : bool;
  enable_camina : bool;
  max_concurrent_agents : Z;
  belter_timeout : Z
}.

Definition default_config : OrchestratorConfig :=
  {| num_agents := 5; enable_drummer := true; enable_camina := true;
     max_concurrent_agents := 10; belter_timeout := 180 |}.

Inductive Event : Type :=
| Worked (agent : string)
| Chatted (agent prompt : string)
| Streamed (kind msg : string)
| Printed (msg : string).

(** [BaseAgent._create_response] *)
Definition _create_response (self_id : string) (content : string)
    (status : TaskStatus) (citations : list string)
    (metadata : option (gmap string MetaVal)) (error_message : option string)
    : AgentResponse :=
  {| agent_id := self_id; status := status; content := content;
     citations := citations; metadata := metadata;
     error_message := error_message |}.

(** The [except Exception as e] clause shared by the three agents. *)
Definition failed_response (self_id : string) (e : Exn) : M Event AgentResponse :=
  mret (_create_response self_id "" FAILED [] None (Some (str_of_exn e))).

(** ** Tier 1 *)

(** [BelterAgent.execute_task]; the simulated work is
    [await asyncio.sleep(1)]. *)
Definition BelterAgent_execute_task (self_id specialization : string)
    (task : AgentTask) : M Event AgentResponse :=
  try_catch
    (emit (Worked self_id);;
     let response_content :=
       "Belter " +:+ self_id +:+ " completed task: " +:+ prompt task in
     mret (_create_response self_id response_content COMPLETED []
             (Some (<["specialization" := MStr specialization]>
                      (<["tier" := MStr "belter"]> ∅))) None))
    (failed_response self_id).

(** ** Tier 2 *)

(** [task.context.get(key, d) if task.context else d], for the key read
    by [field]. *)
Definition context_get {A} (task : AgentTask) (field : Context → option A)
    (d : A) : A :=
  match context task with
  | None => d
  | Some ctx => if has_keys ctx then default d (field ctx) else d
  end.

(** [list(set(all_citations))] over the citations of the completed
    responses; the order of a Python set is not specified, and neither is
    the order of [elements]. *)
Definition unique_citations (responses : list AgentResponse) : list string :=
  elements (list_to_set
    (mbind (M := list) citations
       (filter (λ r, status r = COMPLETED) responses)) : gset string).

(** [DrummerAgent.execute_task]; the simulated synthesis is
    [await asyncio.sleep(1.5)]. *)
Definition DrummerAgent_execute_task (self_id : string) (task : AgentTask)
    : M Event AgentResponse :=
  try_catch
    (let rs := context_get task belter_responses [] in
     if decide (rs = []) then
       raise (Exception "No Belter responses provided for synthesis")
     else
       emit (Worked self_id);;
       let synthesis_content :=
         "Drummer synthesis of " +:+ str_of_Z (len rs) +:+ " Belter responses" in
       mret (_create_response self_id synthesis_content COMPLETED
               (unique_citations rs)
               (Some (<["belter_count" := MInt (len rs)]>
                        (<["synthesis_type" := MStr "drummer"]>
                           (<["tier" := MStr "drummer"]> ∅)))) None))
    (failed_response self_id).

(** [x or d] on an optional string. *)
Definition str_or (x : option string) (d : string) : string :=
  match x with
  | Some s => if decide (s = "") then d else s
  | None => d
  end.

(** [DrummerAgent.synthesize_belter_results], given the [execute_task]
    of the agent's class. *)
Definition synthesize_belter_results
    (execute_task : AgentTask → M Event AgentResponse)
    (responses : list AgentResponse) (query : option string)
    : M Event AgentResponse :=
  execute_task
    {| prompt := str_or query "Synthesize research findings";
       context := Some {| belter_responses := Some responses;
                          drummer_responses := None;
                          total_belter_count := None;
                          original_query := Some query;
                          task_type := Some "synthesis" |};
       timeout_seconds := 300 |}.

(** ** Tier 3 *)

(** [CaminaAgent.execute_task]; the simulated synthesis is
    [await asyncio.sleep(2)]. *)
Definition CaminaAgent_execute_task (self_id : string) (task : AgentTask)
    : M Event AgentResponse :=
  try_catch
    (let rs := context_get task drummer_responses [] in
     let belter_count := context_get task total_belter_count 0 in
     if decide (rs = []) then
       raise (Exception "No Drummer responses provided for final synthesis")
     else
       emit (Worked self_id);;
       let executive_content :=
         "Executive synthesis: " +:+ str_of_Z (len rs) +:+ " Drummer units, "
         +:+ str_of_Z belter_count +:+ " total Belters" in
       mret (_create_response self_id executive_content COMPLETED
               (unique_citations rs)
               (Some (<["drummer_count" := MInt (len rs)]>
                     (<["total_belter_count" := MInt belter_count]>
                     (<["synthesis_type" := MStr "camina_executive"]>
                     (<["tier" := MStr "camina"]> ∅))))) None))
    (failed_response self_id).

(** [CaminaAgent.final_synthesis] *)
Definition final_synthesis
    (execute_task : AgentTask → M Event AgentResponse)
    (belters drummers : list AgentResponse) (query : option string)
    : M Event AgentResponse :=
  execute_task
    {| prompt := str_or query "Create executive-level synthesis";
       context := Some {| belter_responses := None;
                          drummer_responses := Some drummers;
                          total_belter_count := Some (len belters);
                          original_query := Some query;
                          task_type := Some "executive_synthesis" |};
       timeout_seconds := 300 |}.

(** ** The orchestrator *)

(** An awaited call under [asyncio.wait_for]: it finishes in time, with a
    response or an exception, or it is still running at the deadline. *)
Inductive Timed (A : Type) : Type :=
| InTime (c : M Event A)
| Overrun.
Arguments InTime {A} c.
Arguments Overrun {A}.

(** Agents, each with the [execute_task] of its class. *)
Record Belter : Type := {
  b_id : string;
  b_specialization : string;
  b_execute_task : AgentTask → Timed AgentResponse
}.
Record Drummer : Type := {
  d_id : string;
  d_execute_task : AgentTask → M Event AgentResponse
}.
Record Camina : Type := {
  c_id : string;
  c_execute_task : AgentTask → M Event AgentResponse
}.

(** The dictionary built by [_create_agent_swarm]. *)
Record Swarm : Type := {
  belters : list Belter;
  drummers : list Drummer;
  camina : option Camina
}.

(** [BelterAgent(agent_id, specialization)], which keeps
    [specialization or "general"]; [late] tells whether its one second of
    simulated work is still running at the deadline. *)
Definition BelterAgent (late : bool) (id : string)
    (specialization : option string) : Belter :=
  let specialization := str_or specialization "general" in
  {| b_id := id; b_specialization := specialization;
     b_execute_task := λ task,
       if late then Overrun
       else InTime (BelterAgent_execute_task id specialization task) |}.

Definition DrummerAgent (id : string) : Drummer :=
  {| d_id := id; d_execute_task := DrummerAgent_execute_task id |}.

Definition CaminaAgent (id : string) : Camina :=
  {| c_id := id; c_execute_task := CaminaAgent_execute_task id |}.

Definition specializations : list string :=
  ["research"; "analysis"; "coding"; "financial"; "general"].

(** [HierarchicalOrchestrator._create_agent_swarm]; [late i] is the
    clock's verdict on the [i]-th Belter. *)
Definition _create_agent_swarm (cfg : OrchestratorConfig) (late : Z → bool)
    (num_subtasks : Z) : M Event Swarm :=
  let bs :=
    (λ i, BelterAgent (late i) ("belter_" +:+ str_of_Z (i + 1))
            (Some (default "" (specializations
                                 !! Z.to_nat (i `mod` len specializations)))))
    <$> range num_subtasks in
  let ds :=
    if enable_drummer cfg then
      (λ i, DrummerAgent ("drummer_" +:+ str_of_Z (i + 1)))
      <$> range ((num_subtasks + 4) `div` 5)
    else [] in
  let num_drummers :=
    if enable_drummer cfg then (num_subtasks + 4) `div` 5 else 0 in
  let c :=
    if enable_camina cfg && (2 <=? num_drummers)
    then Some (CaminaAgent "camina_1") else None in
  mret {| belters := bs; drummers := ds; camina := c |}.

(** [stream_callback(kind, msg)]; [Some e] when the callback raises. *)
Definition StreamCallback : Type := string → string → option string.

Definition stream (cb : option StreamCallback) (kind msg : string) : M Event unit :=
  match cb with
  | None => mret tt
  | Some f =>
      emit (Streamed kind msg);;
      match f kind msg with
      | Some e => raise (Exception e)
      | None => mret tt
      end
  end.

(** [execute_with_limit] of [_execute_belters_parallel] *)
Definition execute_with_limit (cfg : OrchestratorConfig) (task : string)
    (agent : Belter) (idx : nat) : M Event AgentResponse :=
  let agent_task :=
    {| prompt := "Subtask " +:+ str_of_Z (Z.of_nat idx + 1) +:+ ": " +:+ task;
       context := None; timeout_seconds := belter_timeout cfg |} in
  try_catch
    (match b_execute_task agent agent_task with
     | InTime c => c
     | Overrun => raise TimeoutError
     end)
    (λ e, match e with
          | TimeoutError =>
              mret (_create_response (b_id agent) "" FAILED [] None
                      (Some ("Timeout after " +:+ str_of_Z (belter_timeout cfg)
                             +:+ "s")))
          | Exception _ => raise e
          end).

(** The loop [for result in results] of [_execute_belters_parallel]. *)
Fixpoint keep_responses (results : list (Res AgentResponse))
    (processed_results : list AgentResponse) : M Event (list AgentResponse) :=
  match results with
  | [] => mret processed_results
  | Raise e :: rest =>
      emit (Printed ("Belter failed: " +:+ str_of_exn e));;
      keep_responses rest processed_results
  | Ok r :: rest => keep_responses rest (processed_results ++ [r])
  end.

(** [asyncio.Semaphore(value)] refuses a negative value. *)
Definition Semaphore (value : Z) : M Event unit :=
  if value <? 0 then raise (Exception "Semaphore initial value must be >= 0")
  else mret tt.

(** [_execute_belters_parallel].  With a semaphore of value [0] no Belter
    would ever start; the definition describes the executions in which
    every admitted coroutine gets its turn. *)
Definition _execute_belters_parallel (cfg : OrchestratorConfig)
    (bs : list Belter) (task : string) : M Event (list AgentResponse) :=
  Semaphore (max_concurrent_agents cfg);;
  results ← gather (imap (λ idx agent, execute_with_limit cfg task agent idx) bs);
  keep_responses results [].

(** [belter_groups] of [_execute_drummers_parallel] *)
Definition belter_groups (belter_results : list AgentResponse)
    : list (list AgentResponse) :=
  (λ i, slice belter_results i (i + 5)) <$> range_step 0 (len belter_results) 5.

Definition _execute_drummers_parallel (ds : list Drummer)
    (belter_results : list AgentResponse) (original_task : string)
    : M Event (list AgentResponse) :=
  let tasks :=
    (λ '(drummer, group),
       synthesize_belter_results (d_execute_task drummer) group (Some original_task))
    <$> filter (λ '(_, group), group ≠ []) (zip ds (belter_groups belter_results)) in
  gather_raising tasks.

(** The dictionary returned by [execute_task], without
    [execution_time]. *)
Record Output : Type := {
  out_task : string;
  belter_responses_out : list AgentResponse;
  drummer_responses_out : list AgentResponse;
  camina_response : option AgentResponse;
  total_agents : Z
}.

(** [HierarchicalOrchestrator.execute_task]; [create_agent_swarm] is the
    method [_create_agent_swarm] of the orchestrator's class. *)
Definition execute_task (cfg : OrchestratorConfig)
    (create_agent_swarm : Z → M Event Swarm) (task : string)
    (stream_callback : option StreamCallback) : M Event Output :=
  try_catch
    (agents ← create_agent_swarm (num_agents cfg);
     stream stream_callback "status"
       ("Deploying " +:+ str_of_Z (num_agents cfg) +:+ " Belter agents...");;
     belter_results ← _execute_belters_parallel cfg (belters agents) task;
     drummer_results ←
       (if enable_drummer cfg && (5 <=? len belter_results) then
          stream stream_callback "status" "Initializing Drummer synthesis...";;
          _execute_drummers_parallel (drummers agents) belter_results task
        else mret []);
     camina_result ←
       (if enable_camina cfg && (2 <=? len drummer_results) then
          stream stream_callback "status" "Launching Camina executive synthesis...";;
          match camina agents with
          | Some c =>
              r ← final_synthesis (c_execute_task c) belter_results
                    drummer_results (Some task);
              mret (Some r)
          | None =>
              raise (Exception "'NoneType' object has no attribute 'final_synthesis'")
          end
        else mret None);
     mret {| out_task := task;
             belter_responses_out := belter_results;
             drummer_responses_out := drummer_results;
             camina_response := camina_result;
             total_agents := len belter_results + len drummer_results
                             + (match camina_result with Some _ => 1 | None => 0 end) |})
    (λ e, emit (Printed ("Orchestration failed: " +:+ str_of_exn e));; raise e).

(** ** cascade.py: agents that call a language model *)

(** What the agents use of a provider:
    [ProviderFactory.select_model_by_complexity(query, provider_name)[0]]
    and [provider.chat(prompt, system_prompt, model)]. *)
Record Provider : Type := {
  select_model_by_complexity : string → Res string;
  chat : string → string → string → Res string
}.

(** [self.model or select_model_by_complexity(query, ...)[0]] *)
Definition model_or_select (p : Provider) (model : option string)
    (query : string) : Res string :=
  match model with
  | Some m => if decide (m = "") then select_model_by_complexity p query else Ok m
  | None => select_model_by_complexity p query
  end.

(** [str(d.get(key))] on a metadata dictionary. *)
Definition meta_get_text (m : gmap string MetaVal) (key : string) : string :=
  match m !! key with
  | Some (MStr s) => s
  | Some (MInt z) => str_of_Z z
  | None => "None"
  end.

Section Cascade.

(** [str()] of a context dictionary, which is Python's and is not
    spelled out here. *)
Variable repr_context : Context → string.
(** [ProviderFactory.get_provider(provider_name)] *)
Variable get_provider : Res Provider.
(** [self.model] *)
Variable model : option string.

Definition context_text (c : option Context) : string :=
  match c with
  | None => "None"
  | Some ctx => repr_context ctx
  end.

Definition belter_system_prompt (specialization : string) : string :=
  "You are a specialized research agent called a 'Belter'. "
  +:+ "Your specialization is " +:+ specialization +:+ ".".

Definition belter_user_prompt (task : AgentTask) : string :=
  "Research task: " +:+ prompt task +:+ nl +:+ nl +:+ "Context: "
  +:+ context_text (context task).

(** [RealLLMBelterAgent.execute_task] *)
Definition RealLLMBelterAgent_execute_task (p : Provider)
    (self_id specialization : string) (task : AgentTask)
    : M Event AgentResponse :=
  try_catch
    (let system_prompt := belter_system_prompt specialization in
     let user_prompt := belter_user_prompt task in
     model_to_use ← lift (model_or_select p model (prompt task));
     emit (Chatted self_id user_prompt);;
     response_content ← lift (chat p user_prompt system_prompt model_to_use);
     mret (_create_response self_id response_content COMPLETED []
             (Some (<["specialization" := MStr specialization]>
                      (<["model" := MStr model_to_use]> ∅))) None))
    (failed_response self_id).

(** The text of one completed Belter response in the Drummer's
    prompt. *)
Definition belter_finding (r : AgentResponse) : M Event string :=
  match metadata r with
  | None => raise (Exception "'NoneType' object has no attribute 'get'")
  | Some m =>
      mret ("Belter " +:+ agent_id r +:+ " (" +:+ meta_get_text m "specialization"
            +:+ "):" +:+ nl +:+ content r)
  end.

Definition drummer_system_prompt : string :=
  "You are a synthesis agent called a 'Drummer'. Your job is to "
  +:+ "aggregate findings from 5 research 'Belters' into a coherent report.".

Definition drummer_user_prompt (query responses_text : string) : string :=
  "Original Query: " +:+ query +:+ nl +:+ nl +:+ "Belter Findings:"
  +:+ nl +:+ responses_text +:+ nl +:+ nl
  +:+ "Please synthesize these findings into a detailed summary.".

(** [RealLLMDrummerAgent.execute_task] *)
Definition RealLLMDrummerAgent_execute_task (p : Provider)
    (self_id : string) (task : AgentTask) : M Event AgentResponse :=
  try_catch
    (rs ← match context task with
          | None => raise (Exception "'NoneType' object has no attribute 'get'")
          | Some ctx => mret (default [] (belter_responses ctx))
          end;
     parts ← gather_raising
               (belter_finding <$> filter (λ r, status r = COMPLETED) rs);
     let responses_text := join (nl +:+ nl +:+ "---" +:+ nl +:+ nl) parts in
     let system_prompt := drummer_system_prompt in
     let user_prompt := drummer_user_prompt (prompt task) responses_text in
     model_to_use ← lift (model_or_select p model user_prompt);
     emit (Chatted self_id user_prompt);;
     response_content ← lift (chat p user_prompt system_prompt model_to_use);
     mret (_create_response self_id response_content COMPLETED [] None None))
    (failed_response self_id).

(** The text of the completed Drummer responses in the Camina's
    prompt. *)
Definition drummer_syntheses (rs : list AgentResponse) : string :=
  join (nl +:+ nl +:+ "===" +:+ nl +:+ nl)
    ((λ r, "Drummer " +:+ agent_id r +:+ " Synthesis:" +:+ nl +:+ content r)
     <$> filter (λ r, status r = COMPLETED) rs).

Definition camina_system_prompt : string :=
  "You are an executive synthesis agent called 'Camina'. Your job is to "
  +:+ "provide the final high-level executive report based on Drummer syntheses.".

Definition camina_user_prompt (query responses_text : string) : string :=
  "Original Query: " +:+ query +:+ nl +:+ nl +:+ "Drummer Syntheses:"
  +:+ nl +:+ responses_text +:+ nl +:+ nl
  +:+ "Please create the final executive summary and key findings.".

(** [RealLLMCaminaAgent.execute_task] *)
Definition RealLLMCaminaAgent_execute_task (p : Provider)
    (self_id : string) (task : AgentTask) : M Event AgentResponse :=
  try_catch
    (rs ← match context task with
          | None => raise (Exception "'NoneType' object has no attribute 'get'")
          | Some ctx => mret (default [] (drummer_responses ctx))
          end;
     let responses_text := drummer_syntheses rs in
     let system_prompt := camina_system_prompt in
     let user_prompt := camina_user_prompt (prompt task) responses_text in
     model_to_use ← lift (model_or_select p model user_prompt);
     emit (Chatted self_id user_prompt);;
     response_content ← lift (chat p user_prompt system_prompt model_to_use);
     mret (_create_response self_id response_content COMPLETED [] None None))
    (failed_response self_id).

(** The constructors, which look the provider up. *)
Definition RealLLMBelterAgent (late : bool) (id : string)
    (specialization : option string) : M Event Belter :=
  let specialization := str_or specialization "general" in
  p ← lift get_provider;
  mret {| b_id := id; b_specialization := specialization;
          b_execute_task := λ task,
            if late then Overrun
            else InTime (RealLLMBelterAgent_execute_task p id specialization task) |}.

Definition RealLLMDrummerAgent (id : string) : M Event Drummer :=
  p ← lift get_provider;
  mret {| d_id := id; d_execute_task := RealLLMDrummerAgent_execute_task p id |}.

Definition RealLLMCaminaAgent (id : string) : M Event Camina :=
  p ← lift get_provider;
  mret {| c_id := id; c_execute_task := RealLLMCaminaAgent_execute_task p id |}.

Definition cascade_specializations : list string :=
  ["research"; "analysis"; "technical"; "strategic"; "general"].

(** [DreamCascadeOrchestrator._create_agent_swarm] *)
Definition DreamCascade_create_agent_swarm (cfg : OrchestratorConfig)
    (late : Z → bool) (num_subtasks : Z) : M Event Swarm :=
  bs ← gather_raising
         ((λ i, RealLLMBelterAgent (late i) ("belter_" +:+ str_of_Z (i + 1))
                  (Some (default "" (cascade_specializations
                           !! Z.to_nat (i `mod` len cascade_specializations)))))
          <$> range num_subtasks);
  ds ← (if enable_drummer cfg then
          gather_raising
            ((λ i, RealLLMDrummerAgent ("drummer_" +:+ str_of_Z (i + 1)))
             <$> range ((num_subtasks + 4) `div` 5))
        else mret []);
  c ← (if enable_camina cfg && (2 <=? len ds) then
         a ← RealLLMCaminaAgent "camina_1"; mret (Some a)
       else mret None);
  mret {| belters := bs; drummers := ds; camina := c |}.

End Cascade.

End Hierarchical.

(* ===================================================================== *)
(** * task_decomposition_pattern.py *)
(* ===================================================================== *)

Module Decomposition.

Definition nl : ascii := "010"%char.

(** [DecompositionConfig]; [temperature] only reaches the provider. *)
Record DecompositionConfig : Type := {
  min_subtasks : Z;
  max_subtasks : Z;
  target_agent_count : option Z;
  enable_padding : bool;
  enable_validation : bool
}.

Definition default_config : DecompositionConfig :=
  {| min_subtasks := 3; max_subtasks := 15; target_agent_count := None;
     enable_padding := true; enable_validation := true |}.

(** [decomposition_metadata], without its timestamp. *)
Record Metadata : Type := {
  method : string;
  original_count : Z;
  padded : bool
}.

(** [TaskDecomposition], without [created_at]. *)
Record TaskDecomposition : Type := {
  original_task : string;
  subtasks : list string;
  decomposition_metadata : Metadata
}.

Inductive Event : Type :=
| Generated (user_prompt : string)
| Printed (msg : string).

(** [llm_provider.generate(system_prompt, user_prompt, temperature,
    max_tokens)] as a function of the user prompt; the system prompt is a
    constant of the source. *)
Definition Provider : Type := string → Res string.

Definition template_bank (task : string) : list string :=
  [ "Research and gather relevant information about: " +:+ task;
    "Analyze key aspects and factors related to: " +:+ task;
    "Identify challenges and opportunities for: " +:+ task;
    "Evaluate different approaches and strategies for: " +:+ task;
    "Synthesize findings and formulate recommendations for: " +:+ task ].

Definition _template_decompose (cfg : DecompositionConfig) (task : string)
    : list string :=
  slice_to (template_bank task) (min_subtasks cfg).

Definition generic_bank (task : string) : list string :=
  [ "Conduct supplementary research on: " +:+ task;
    "Perform detailed analysis of: " +:+ task;
    "Investigate related aspects of: " +:+ task;
    "Gather additional perspectives on: " +:+ task;
    "Examine supporting evidence for: " +:+ task;
    "Research secondary sources about: " +:+ task;
    "Analyze contextual factors of: " +:+ task;
    "Study comparative examples of: " +:+ task;
    "Evaluate different approaches to: " +:+ task;
    "Explore implications and consequences of: " +:+ task;
    "Review best practices related to: " +:+ task;
    "Investigate potential challenges with: " +:+ task;
    "Research implementation strategies for: " +:+ task;
    "Analyze stakeholder perspectives on: " +:+ task;
    "Study market/industry context of: " +:+ task ].

Definition _get_generic_subtasks (task : string) (count : Z) : list string :=
  (λ i, default "" (generic_bank task !! Z.to_nat (i `mod` len (generic_bank task))))
  <$> range count.

(** The markers of a bulleted line, each by its code points: a hyphen,
    the bullet [U+2022] or an asterisk, and a space. *)
Definition bullet_markers : list (list N) :=
  [ [45; 32]; [8226; 32]; [42; 32] ]%N.

(** One line of [_parse_numbered_list], already stripped: the item it
    contributes, if any. *)
Definition parse_line (line : string) : option string :=
  match line with
  | EmptyString => None
  | String c0 _ =>
      if is_digit c0 && (contains "."%char line || contains ")"%char line) then
        if contains "."%char line then Some (strip (after_first "."%char line))
        else Some (strip (after_first ")"%char line))
      else if existsb (λ marker, startswith marker line) bullet_markers then
        Some (strip (drop_chars 2 line))
      else None
  end.

(** [_parse_numbered_list] *)
Definition _parse_numbered_list (text : string) : list string :=
  omap (λ line, parse_line (strip line)) (split nl (strip text)).

Fixpoint validate_go (subtasks validated : list string) : list string :=
  match subtasks with
  | [] => validated
  | subtask :: rest =>
      if str_len (strip subtask) <? 10 then validate_go rest validated
      else if bool_decide (subtask ∈ validated) then validate_go rest validated
      else validate_go rest (validated ++ [subtask])
  end.

Definition _validate_subtasks (subtasks : list string) (original_task : string)
    : list string :=
  validate_go subtasks [].

Definition _pad_to_target_count (cfg : DecompositionConfig)
    (subtasks : list string) (task : string) : list string :=
  match target_agent_count cfg with
  | None => subtasks
  | Some target =>
      if (target =? 0) || (target <=? len subtasks) then
        if target =? 0 then subtasks else slice_to subtasks target
      else
        let additional_needed := target - len subtasks in
        subtasks ++ _get_generic_subtasks task additional_needed
  end.

(** The user prompt of [_llm_decompose]; [context] lists the items of the
    context dictionary, keys and values as the f-string renders them. *)
Definition user_prompt (task : string) (context : option (list (string * string)))
    : string :=
  let head := "Break down this task into subtasks:" +:+ String nl (String nl task) in
  match context with
  | None | Some [] => head
  | Some items =>
      head +:+ String nl
        (String nl ("Additional context:" +:+ String nl
           (join (String nl "")
              ((λ '(k, v), "- " +:+ k +:+ ": " +:+ v) <$> items))))
  end.

Definition _llm_decompose (cfg : DecompositionConfig) (task : string)
    (context : option (list (string * string))) (llm_provider : Provider)
    : M Event (list string) :=
  let prompt := user_prompt task context in
  try_catch
    (emit (Generated prompt);;
     response ← lift (llm_provider prompt);
     let subtasks := _parse_numbered_list response in
     let subtasks :=
       if len subtasks <? min_subtasks cfg then
         subtasks ++ _get_generic_subtasks task (min_subtasks cfg - len subtasks)
       else subtasks in
     mret (slice_to subtasks (max_subtasks cfg)))
    (λ e,
       emit (Printed ("LLM decomposition failed: " +:+ str_of_exn e
                      +:+ ", falling back to template"));;
       mret (_template_decompose cfg task)).

Definition decompose_task (cfg : DecompositionConfig) (task : string)
    (context : option (list (string * string))) (llm_provider : option Provider)
    : M Event TaskDecomposition :=
  subtasks ← match llm_provider with
             | Some p => _llm_decompose cfg task context p
             | None => mret (_template_decompose cfg task)
             end;
  let subtasks :=
    if enable_validation cfg then _validate_subtasks subtasks task else subtasks in
  let subtasks :=
    if enable_padding cfg
       && match target_agent_count cfg with
          | Some t => negb (t =? 0)
          | None => false
          end
    then _pad_to_target_count cfg subtasks task else subtasks in
  mret {| original_task := task;
          subtasks := subtasks;
          decomposition_metadata :=
            {| method := match llm_provider with
                         | Some _ => "llm"
                         | None => "template"
                         end;
               original_count := len subtasks;
               padded := enable_padding cfg
                         && negb (len subtasks =? len (_validate_subtasks [] task)) |} |}.

End Decomposition.

(* ===================================================================== *)
(** * phased_workflow_orchestrator.py *)
(* ===================================================================== *)

Module Phased.

Record WorkflowPhase : Type := {
  name : string;
  dispatch_to : string;
  purpose : string;
  wait_for_completion : bool;
  can_run_parallel : bool
}.

(** A [findings] dictionary. *)
Abbreviation Findings := (gmap string string).

(** [PhaseResult], without [duration_seconds] and without [artifacts],
    which [_execute_phase] never fills in. *)
Record PhaseResult : Type := {
  phase_name : string;
  agent_name : string;
  status : string;
  findings : Findings;
  error : option string
}.

(** [OrchestratorResult], without its timestamps and without [summary]
    and [artifacts], which are written after [status] is set. *)
Record OrchestratorResult : Type := {
  orchestrator_name : string;
  task_id : string;
  project : string;
  run_status : string;
  phase_results : list PhaseResult
}.

(** A value of the context dictionary handed to the agents. *)
Inductive CtxVal : Type :=
| CStr (s : string)
| CFindings (f : Findings).

Abbreviation Context := (gmap string CtxVal).

(** The dictionary an agent returns, read through the three keys the
    orchestrator looks up; a field is [None] when the key is absent. *)
Record AgentReply : Type := {
  reply_status : option string;
  reply_findings : option Findings;
  reply_error : option string
}.

(** [AgentExecutor]: the callback that runs one agent. *)
Definition AgentExecutor : Type := string → Context → Res AgentReply.

Inductive Event : Type :=
| Dispatched (agent : string)
| Logged (msg : string).

Section Orchestrator.

(** [self.name], [self.agent_executor] and the abstract method
    [get_workflow_phases]. *)
Variable self_name : string.
Variable agent_executor : AgentExecutor.
Variable get_workflow_phases : string → Res (list WorkflowPhase).

Definition execute_agent (agent : string) (context : Context)
    : M Event AgentReply :=
  try_catch
    (emit (Dispatched agent);;
     lift (agent_executor agent context))
    (λ e,
       emit (Logged ("Agent " +:+ agent +:+ " failed: " +:+ str_of_exn e));;
       mret {| reply_status := Some "failed"; reply_findings := None;
               reply_error := Some (str_of_exn e) |}).

Definition _execute_phase (phase : WorkflowPhase) (context : Context)
    : M Event PhaseResult :=
  try_catch
    (result ← execute_agent (dispatch_to phase) context;
     let status := default "success" (reply_status result) in
     let status :=
       if decide (status = "failed") then "failed"
       else if decide (status = "partial") then "partial"
       else "success" in
     mret {| phase_name := name phase; agent_name := dispatch_to phase;
             status := status;
             findings := default ∅ (reply_findings result);
             error := reply_error result |})
    (λ e,
       mret {| phase_name := name phase; agent_name := dispatch_to phase;
               status := "failed"; findings := ∅;
               error := Some (str_of_exn e) |}).

(** The loop of [_execute_sequential]. *)
Fixpoint sequential_loop (phases : list WorkflowPhase)
    (results : list PhaseResult) (running_context : Context)
    : M Event (list PhaseResult) :=
  match phases with
  | [] => mret results
  | phase :: rest =>
      emit (Logged ("Executing phase: " +:+ name phase));;
      result ← _execute_phase phase running_context;
      let results := results ++ [result] in
      let running_context :=
        <[name phase +:+ "_result" := CFindings (findings result)]> running_context in
      if bool_decide (status result = "failed") && wait_for_completion phase then
        emit (Logged ("Phase " +:+ name phase +:+ " failed, stopping sequence"));;
        mret results
      else sequential_loop rest results running_context
  end.

Definition _execute_sequential (phases : list WorkflowPhase) (context : Context)
    : M Event (list PhaseResult) :=
  sequential_loop phases [] context.

Definition _execute_parallel (phases : list WorkflowPhase) (context : Context)
    : M Event (list PhaseResult) :=
  gather_raising ((λ phase, _execute_phase phase context) <$> phases).

(** "Determine overall status" in [run]. *)
Definition overall_status (statuses : list string) : string :=
  if forallb (λ s, bool_decide (s = "success")) statuses then "success"
  else if existsb (λ s, bool_decide (s = "failed")) statuses then
    if existsb (λ s, bool_decide (s = "success")) statuses then "partial"
    else "failed"
  else "partial".

(** [run]; [stamp] is the timestamp in the task identifier. *)
Definition run (stamp : string) (project mode : string)
    (agents : option (list string)) : M Event OrchestratorResult :=
  let task_id := self_name +:+ "_" +:+ stamp in
  try_catch
    (all_phases ← lift (get_workflow_phases mode);
     let all_phases :=
       match agents with
       | None | Some [] => all_phases
       | Some names => filter (λ p, dispatch_to p ∈ names) all_phases
       end in
     let sequential := filter (λ p, can_run_parallel p = false) all_phases in
     let parallel := filter (λ p, can_run_parallel p = true) all_phases in
     let context : Context :=
       <["project" := CStr project]>
       (<["mode" := CStr mode]>
       (<["orchestrator" := CStr self_name]>
       (<["task_id" := CStr task_id]> ∅))) in
     '(phase_results, context) ←
       match sequential with
       | [] => mret ([], context)
       | _ :: _ =>
           seq_results ← _execute_sequential sequential context;
           mret (seq_results,
                 foldl (λ ctx pr,
                          <[agent_name pr +:+ "_result" := CFindings (findings pr)]> ctx)
                       context seq_results)
       end;
     phase_results ←
       match parallel with
       | [] => mret phase_results
       | _ :: _ =>
           par_results ← _execute_parallel parallel context;
           mret (phase_results ++ par_results)
       end;
     mret {| orchestrator_name := self_name; task_id := task_id;
             project := project;
             run_status := overall_status (status <$> phase_results);
             phase_results := phase_results |})
    (λ e,
       emit (Logged ("Orchestrator " +:+ self_name +:+ " failed: " +:+ str_of_exn e));;
       mret {| orchestrator_name := self_name; task_id := task_id;
               project := project; run_status := "failed";
               phase_results := [] |}).

End Orchestrator.

End Phased.

(* ===================================================================== *)
(** * multi_agent_data_models.py *)
(* ===================================================================== *)

Module DataModels.

Inductive TaskStatus : Type :=
| PENDING | RUNNING | COMPLETED | FAILED | CANCELLED.

Inductive AgentType : Type :=
| WORKER | SYNTHESIZER | EXECUTIVE | MONITOR | SPECIALIZED.

Definition TaskStatus_value (s : TaskStatus) : string :=
  match s with
  | PENDING => "pending"
  | RUNNING => "running"
  | COMPLETED => "completed"
  | FAILED => "failed"
  | CANCELLED => "cancelled"
  end.

Definition AgentType_value (a : AgentType) : string :=
  match a with
  | WORKER => "worker"
  | SYNTHESIZER => "synthesizer"
  | EXECUTIVE => "executive"
  | MONITOR => "monitor"
  | SPECIALIZED => "specialized"
  end.

Section FromDict.

(** Python's [float]: its values, the constructor on integers (which
    raises [OverflowError] on a number too large) and on strings (which
    raises [ValueError] on a text that is no number), and the truth
    value of a float. *)
Context {F : Type}.
Variable float_of_int : Z → Res F.
Variable float_of_str : string → Res F.
Variable float_truth : F → bool.

(** The values a dictionary read from JSON or built by the program can
    hold. *)
#[local] Set Warnings "-register-all".
Inductive PyValue : Type :=
| PyNone
| PyBool (b : bool)
| PyInt (z : Z)
| PyFloat (f : F)
| PyStr (s : string)
| PyList (l : list PyValue)
| PyDict (d : gmap string PyValue)
| PyStatus (s : TaskStatus)
| PyAgentType (a : AgentType).

(** [AgentResult]; the fields that [from_dict] copies unchanged keep the
    value found in the dictionary. *)
Record AgentResult : Type := {
  agent_id : PyValue;
  agent_type : AgentType;
  subtask_id : PyValue;
  content : PyValue;
  status : TaskStatus;
  execution_time : F;
  cost : F;
  metadata : PyValue;
  error : PyValue;
  citations : PyValue
}.

(** [type(v).__name__] *)
Definition type_name (v : PyValue) : string :=
  match v with
  | PyNone => "NoneType"
  | PyBool _ => "bool"
  | PyInt _ => "int"
  | PyFloat _ => "float"
  | PyStr _ => "str"
  | PyList _ => "list"
  | PyDict _ => "dict"
  | PyStatus _ => "TaskStatus"
  | PyAgentType _ => "AgentType"
  end.

(** [float(v)], with the text of the [TypeError] of Python 3.10 and
    later. *)
Definition float (v : PyValue) : Res F :=
  match v with
  | PyFloat f => Ok f
  | PyInt z => float_of_int z
  | PyBool b => float_of_int (if b then 1 else 0)
  | PyStr s => float_of_str s
  | PyNone | PyList _ | PyDict _ | PyStatus _ | PyAgentType _ =>
      Raise (Exception ("float() argument must be a string or a real number, not '"
                        +:+ type_name v +:+ "'"))
  end.

(** Truth value of a value. *)
Definition truth (v : PyValue) : bool :=
  match v with
  | PyNone => false
  | PyBool b => b
  | PyInt z => negb (z =? 0)
  | PyFloat f => float_truth f
  | PyStr s => negb (bool_decide (s = ""))
  | PyList l => negb (bool_decide (l = []))
  | PyDict d => negb (bool_decide (d = ∅))
  | PyStatus _ | PyAgentType _ => true
  end.

Definition AgentType_members : list AgentType :=
  [WORKER; SYNTHESIZER; EXECUTIVE; MONITOR; SPECIALIZED].

Definition TaskStatus_members : list TaskStatus :=
  [PENDING; RUNNING; COMPLETED; FAILED; CANCELLED].

(** [AgentType(value)]: the member with that value, [ValueError] when
    there is none.  The values of the members are strings. *)
Definition AgentType_of_value (v : PyValue) : Res AgentType :=
  match v with
  | PyStr s =>
      match List.find (λ m, bool_decide (AgentType_value m = s)) AgentType_members with
      | Some m => Ok m
      | None => Raise (Exception (s +:+ " is not a valid AgentType"))
      end
  | _ => Raise (Exception "not a valid AgentType")
  end.

(** [TaskStatus(value)] *)
Definition TaskStatus_of_value (v : PyValue) : Res TaskStatus :=
  match v with
  | PyStr s =>
      match List.find (λ m, bool_decide (TaskStatus_value m = s)) TaskStatus_members with
      | Some m => Ok m
      | None => Raise (Exception (s +:+ " is not a valid TaskStatus"))
      end
  | _ => Raise (Exception "not a valid TaskStatus")
  end.

(** [d.get(key, dflt)] *)
Definition get (d : gmap string PyValue) (key : string) (dflt : PyValue)
    : PyValue :=
  default dflt (d !! key).

(** [x or y] *)
Definition or_else (x y : PyValue) : PyValue := if truth x then x else y.

(** [AgentResult.from_dict]; [zero] is the float [0.0] of the two
    defaults. *)
Definition from_dict (zero : F) (data : option (gmap string PyValue))
    : Res AgentResult :=
  match data with
  | None => Raise (Exception "AgentResult.from_dict requires data")
  | Some data =>
      let agent_type_value := get data "agent_type" (PyStr (AgentType_value WORKER)) in
      let agent_type_enum :=
        match agent_type_value with
        | PyAgentType a => a
        | _ => match AgentType_of_value agent_type_value with
               | Ok a => a
               | Raise _ => WORKER
               end
        end in
      let status_value := get data "status" (PyStr (TaskStatus_value COMPLETED)) in
      let status_enum :=
        match status_value with
        | PyStatus s => s
        | _ => match TaskStatus_of_value status_value with
               | Ok s => s
               | Raise _ => COMPLETED
               end
        end in
      match float (get data "execution_time" (PyFloat zero)) with
      | Raise e => Raise e
      | Ok execution_time =>
          match float (get data "cost" (PyFloat zero)) with
          | Raise e => Raise e
          | Ok cost =>
              Ok {| agent_id := get data "agent_id" (PyStr "");
                    agent_type := agent_type_enum;
                    subtask_id := get data "subtask_id" (PyStr "");
                    content := get data "content" (PyStr "");
                    status := status_enum;
                    execution_time := execution_time;
                    cost := cost;
                    metadata := or_else (get data "metadata" (PyDict ∅)) (PyDict ∅);
                    error := get data "error" PyNone;
                    citations := or_else (get data "citations" (PyList [])) (PyList []) |}
          end
      end
  end.

End FromDict.

End DataModels.

(* ===================================================================== *)
(** * Vocabulary of the statements *)
(* ===================================================================== *)

Section Vocabulary.

Context {E : Type}.

(** A computation that returns, whatever the log it starts from. *)
Definition total {A} (c : M E A) : Prop :=
  ∀ log, ∃ a log', c log = (Ok a, log').

(** A computation that returns a value satisfying [P]. *)
Definition ensures {A} (c : M E A) (P : A → Prop) : Prop :=
  ∀ log, ∃ a log', c log = (Ok a, log') ∧ P a.

(** A computation that returns [a] after the events [evs], from any
    log. *)
Definition yields {A} (c : M E A) (a : A) (evs : list E) : Prop :=
  ∀ log, c log = (Ok a, log ++ evs).

(** A computation that returns, every event of it satisfying [P]. *)
Definition returns_within {A} (P : E → Prop) (c : M E A) : Prop :=
  ∀ log, ∃ a evs, c log = (Ok a, log ++ evs) ∧ Forall P evs.

(** A computation every event of which satisfies [P], whether it
    returns or raises. *)
Definition emits_only {A} (P : E → Prop) (c : M E A) : Prop :=
  ∀ log, ∃ r evs, c log = (r, log ++ evs) ∧ Forall P evs.

End Vocabulary.

(** The value carried by an outcome, if it is one. *)
Definition ok_of {A} (r : Res A) : option A :=
  match r with Ok a => Some a | Raise _ => None end.

(** [chunks fuel l]: [l] cut into pieces of five, at most [fuel] of them. *)
Fixpoint chunks {A} (fuel : nat) (l : list A) : list (list A) :=
  match fuel with
  | O => []
  | S fuel' =>
      match l with
      | [] => []
      | _ :: _ => take 5 l :: chunks fuel' (drop 5 l)
      end
  end.

Section ParallelVocabulary.
Import ParallelExec.
Context {T : Type}.

(** A progress callback that is absent or never raises. *)
Definition quiet_callback (cb : option (Callback T)) : Prop :=
  ∀ f, cb = Some f → ∀ id st data, f id st data = None.

(** The exception [e] is one that the progress callback raised. *)
Definition callback_raised (cb : option (Callback T)) (e : Exn) : Prop :=
  ∃ f id st data msg, cb = Some f ∧ f id st data = Some msg ∧ e = Exception msg.

(** A computation that returns a value satisfying [Q], or else raises
    an exception of the progress callback. *)
Definition fails_only_by {A} (cb : option (Callback T)) (c : M Event A)
    (Q : A → Prop) : Prop :=
  ∀ log, match c log with
         | (Ok a, _) => Q a
         | (Raise e, _) => callback_raised cb e
         end.

(** The entries of a retry queue point into a result list of [n]
    results. *)
Definition in_range (n : nat) (q : list (RetryTask (T := T))) : Prop :=
  Forall (λ rt, (rt.1.1 < n)%nat) q.

(** The arguments of the [i]-th unit of work: none when no [task_args]
    is given, the [i]-th tuple of [task_args] otherwise. *)
Definition args_at (task_args : option (list Args)) (i : nat) (args : Args)
    : Prop :=
  match task_args with
  | None => args = []
  | Some l => l !! i = Some args
  end.

(** [f"task_{i}"] *)
Definition task_name (i : nat) : string := "task_" +:+ str_of_Z (Z.of_nat i).

(** What the first pass records for a unit of work, when no callback
    interferes. *)
Definition first_pass_result (cfg : ParallelExecutionConfig) (id : string)
    (o : Outcome T) : ExecutionResult T :=
  match o with
  | Returns v => {| task_id := id; status := COMPLETED; result := Some v;
                    error := None; retry_count := 0 |}
  | Overruns => {| task_id := id; status := TIMEOUT; result := None;
                   error := Some (TimeoutAfter (timeout_seconds cfg));
                   retry_count := 0 |}
  | Throws msg => {| task_id := id; status := FAILED; result := None;
                     error := Some (ErrorStr msg); retry_count := 0 |}
  end.

End ParallelVocabulary.

Section HierarchicalVocabulary.
Import Hierarchical.

(** A stream callback that is absent or never raises. *)
Definition quiet (cb : option StreamCallback) : Prop :=
  ∀ f, cb = Some f → ∀ kind msg, f kind msg = None.

Definition drummer_response (id : string) (g : list AgentResponse) : AgentResponse :=
  _create_response id
    ("Drummer synthesis of " +:+ str_of_Z (len g) +:+ " Belter responses")
    COMPLETED (unique_citations g)
    (Some (<["belter_count" := MInt (len g)]>
             (<["synthesis_type" := MStr "drummer"]>
                (<["tier" := MStr "drummer"]> ∅)))) None.

Definition drummer_name (i : nat) : string :=
  "drummer_" +:+ str_of_Z (Z.of_nat i + 1).

Definition timeout_response (cfg : OrchestratorConfig) (b : Belter) : AgentResponse :=
  _create_response (b_id b) "" FAILED [] None
    (Some ("Timeout after " +:+ str_of_Z (belter_timeout cfg) +:+ "s")).

(** [f"belter_{i+1}"] *)
Definition belter_name (i : nat) : string :=
  "belter_" +:+ str_of_Z (Z.of_nat i + 1).

(** The specialization that the [i]-th Belter of a swarm keeps, [names]
    being the specializations of its orchestrator. *)
Definition specialization_of (names : list string) (i : nat) : string :=
  str_or (Some (default "" (names !! Z.to_nat (Z.of_nat i `mod` len names))))
    "general".

(** The task that [_execute_belters_parallel] hands to its [i]-th
    Belter. *)
Definition belter_task (cfg : OrchestratorConfig) (task : string) (i : nat)
    : AgentTask :=
  {| prompt := "Subtask " +:+ str_of_Z (Z.of_nat i + 1) +:+ ": " +:+ task;
     context := None; timeout_seconds := belter_timeout cfg |}.

(** The response to a failure with the text [msg]. *)
Definition failure (id msg : string) : AgentResponse :=
  _create_response id "" FAILED [] None (Some msg).

(** What Tier 1 records for the [i]-th Belter of
    [HierarchicalOrchestrator], and the events of that Belter: a failure
    when [late] says that it overran its deadline, its answer
    otherwise. *)
Definition belter_answer (cfg : OrchestratorConfig) (late : Z → bool)
    (task : string) (i : nat) : AgentResponse * list Event :=
  if late (Z.of_nat i) then
    (failure (belter_name i)
       ("Timeout after " +:+ str_of_Z (belter_timeout cfg) +:+ "s"), [])
  else
    (_create_response (belter_name i)
       ("Belter " +:+ belter_name i +:+ " completed task: "
        +:+ prompt (belter_task cfg task i))
       COMPLETED []
       (Some (<["specialization" := MStr (specialization_of specializations i)]>
                (<["tier" := MStr "belter"]> ∅))) None,
     [Worked (belter_name i)]).

(** What an agent of [cascade.py] answers once its prompts are built,
    and its events: a failure when no model can be selected or the
    provider raises, the provider's text otherwise. *)
Definition llm_answer (p : Provider) (model : option string)
    (id query user_prompt system_prompt : string)
    (metadata : string → option (gmap string MetaVal))
    : AgentResponse * list Event :=
  match model_or_select p model query with
  | Raise e => (failure id (str_of_exn e), [])
  | Ok m =>
      (match chat p user_prompt system_prompt m with
       | Ok answer => _create_response id answer COMPLETED [] (metadata m) None
       | Raise e => failure id (str_of_exn e)
       end,
       [Chatted id user_prompt])
  end.

(** What Tier 1 records for the [i]-th Belter of
    [DreamCascadeOrchestrator], and the events of that Belter. *)
Definition cascade_belter_answer (repr_context : Context → string)
    (p : Provider) (model : option string) (cfg : OrchestratorConfig)
    (late : Z → bool) (task : string) (i : nat) : AgentResponse * list Event :=
  if late (Z.of_nat i) then
    (failure (belter_name i)
       ("Timeout after " +:+ str_of_Z (belter_timeout cfg) +:+ "s"), [])
  else
    let specialization := specialization_of cascade_specializations i in
    llm_answer p model (belter_name i) (prompt (belter_task cfg task i))
      (belter_user_prompt repr_context (belter_task cfg task i))
      (belter_system_prompt specialization)
      (λ m, Some (<["specialization" := MStr specialization]>
                    (<["model" := MStr m]> ∅))).

(** The agents that [DreamCascadeOrchestrator] builds once its provider
    [p] is found. *)
Definition cascade_agents (repr_context : Context → string) (p : Provider)
    (model : option string) (cfg : OrchestratorConfig) (late : Z → bool)
    (num_subtasks : Z) : Swarm :=
  let belter i :=
    let id := "belter_" +:+ str_of_Z (i + 1) in
    let specialization :=
      str_or (Some (default "" (cascade_specializations
                !! Z.to_nat (i `mod` len cascade_specializations)))) "general" in
    {| b_id := id; b_specialization := specialization;
       b_execute_task := λ task,
         if late i then Overrun
         else InTime (RealLLMBelterAgent_execute_task repr_context model p id
                        specialization task) |} in
  let drummer i :=
    let id := "drummer_" +:+ str_of_Z (i + 1) in
    {| d_id := id; d_execute_task := RealLLMDrummerAgent_execute_task model p id |} in
  let ds :=
    if enable_drummer cfg then drummer <$> range ((num_subtasks + 4) `div` 5)
    else [] in
  {| belters := belter <$> range num_subtasks;
     drummers := ds;
     camina :=
       if enable_camina cfg && (2 <=? len ds) then
         Some {| c_id := "camina_1";
                 c_execute_task :=
                   RealLLMCaminaAgent_execute_task model p "camina_1" |}
       else None |}.

(** The agent whose work an event is. *)
Definition event_agent (e : Event) : option string :=
  match e with
  | Worked a | Chatted a _ => Some a
  | Streamed _ _ | Printed _ => None
  end.

(** The part of a log that is the work of the agent [id]. *)
Definition work_of (id : string) (log : list Event) : list Event :=
  filter (λ e, event_agent e = Some id) log.

(** The response of [CaminaAgent] to the Tier 2 results [ds], with
    [belter_count] Tier 1 results behind them. *)
Definition executive_response (id : string) (ds : list AgentResponse)
    (belter_count : Z) : AgentResponse :=
  _create_response id
    ("Executive synthesis: " +:+ str_of_Z (len ds) +:+ " Drummer units, "
     +:+ str_of_Z belter_count +:+ " total Belters")
    COMPLETED (unique_citations ds)
    (Some (<["drummer_count" := MInt (len ds)]>
          (<["total_belter_count" := MInt belter_count]>
          (<["synthesis_type" := MStr "camina_executive"]>
          (<["tier" := MStr "camina"]> ∅))))) None.

(** What [RealLLMCaminaAgent] answers to the Tier 2 results [ds], and
    its events. *)
Definition cascade_executive_answer (p : Provider) (model : option string)
    (id task : string) (ds : list AgentResponse) : AgentResponse * list Event :=
  let user_prompt :=
    camina_user_prompt (str_or (Some task) "Create executive-level synthesis")
      (drummer_syntheses ds) in
  llm_answer p model id user_prompt user_prompt camina_system_prompt (λ _, None).

(** An agent that is neither the Camina nor raises: whatever its task,
    it returns, and its events are its own. *)
Definition keeps_to_itself (id : string) (exec : AgentTask → M Event AgentResponse)
    : Prop :=
  ∀ t, returns_within (λ e, event_agent e = Some id) (exec t).

End HierarchicalVocabulary.

Section PhasedVocabulary.
Import Phased.

Definition known_status (pr : PhaseResult) : Prop :=
  status pr ∈ ["success"; "partial"; "failed"].

End PhasedVocabulary.

Section DecompositionVocabulary.
Import Decomposition.

Definition long_enough (s : string) : Prop := 10 ≤ str_len (strip s).

Definition template_prefixes : list string :=
  [ "Research and gather relevant information about: ";
    "Analyze key aspects and factors related to: ";
    "Identify challenges and opportunities for: ";
    "Evaluate different approaches and strategies for: ";
    "Synthesize findings and formulate recommendations for: " ].

Definition generic_prefixes : list string :=
  [ "Conduct supplementary research on: ";
    "Perform detailed analysis of: ";
    "Investigate related aspects of: ";
    "Gather additional perspectives on: ";
    "Examine supporting evidence for: ";
    "Research secondary sources about: ";
    "Analyze contextual factors of: ";
    "Study comparative examples of: ";
    "Evaluate different approaches to: ";
    "Explore implications and consequences of: ";
    "Review best practices related to: ";
    "Investigate potential challenges with: ";
    "Research implementation strategies for: ";
    "Analyze stakeholder perspectives on: ";
    "Study market/industry context of: " ].

(** What [decompose_task] does to the subtasks it obtained. *)
Definition finish (cfg : DecompositionConfig) (task : string) (pre : list string)
    : list string :=
  let validated :=
    if enable_validation cfg then _validate_subtasks pre task else pre in
  if enable_padding cfg
     && match target_agent_count cfg with
        | Some t => negb (t =? 0)
        | None => false
        end
  then _pad_to_target_count cfg validated task else validated.

Definition provider_unavailable (task : string)
    (context : option (list (string * string))) (llm_provider : option Provider)
    : Prop :=
  llm_provider = None
  ∨ ∃ p e, llm_provider = Some p ∧ p (user_prompt task context) = Raise e.

End DecompositionVocabulary.

(* ===================================================================== *)
(** * Concrete inputs *)
(* ===================================================================== *)

(** A unit of work that raises on every call. *)
Definition always_failing : ParallelExec.Task string :=
  λ _ _, ParallelExec.Throws "boom".

(** A unit of work that is still running at every deadline. *)
Definition always_late : ParallelExec.Task string :=
  λ _ _, ParallelExec.Overruns.

(** The response of a Belter that failed. *)
Definition failed_belter_response : Hierarchical.AgentResponse :=
  Hierarchical._create_response "belter_1" "" Hierarchical.FAILED [] None (Some "boom").

(** A synthesis task whose batch is that one failed response. *)
Definition failed_batch_task : Hierarchical.AgentTask :=
  {| Hierarchical.prompt := "task";
     Hierarchical.context :=
       Some {| Hierarchical.belter_responses := Some [failed_belter_response];
               Hierarchical.drummer_responses := None;
               Hierarchical.total_belter_count := None;
               Hierarchical.original_query := Some (Some "task");
               Hierarchical.task_type := Some "synthesis" |};
     Hierarchical.timeout_seconds := 300 |}.

(** A synthesis task with an empty batch. *)
Definition empty_batch_task : Hierarchical.AgentTask :=
  {| Hierarchical.prompt := "task";
     Hierarchical.context :=
       Some {| Hierarchical.belter_responses := Some [];
               Hierarchical.drummer_responses := None;
               Hierarchical.total_belter_count := None;
               Hierarchical.original_query := Some (Some "task");
               Hierarchical.task_type := Some "synthesis" |};
     Hierarchical.timeout_seconds := 300 |}.

(** A provider that answers every request. *)
Definition answering_provider : Hierarchical.Provider :=
  {| Hierarchical.select_model_by_complexity := λ _, Ok "model";
     Hierarchical.chat := λ _ _ _, Ok "answer" |}.

(** A provider that selects a model and then raises on every request. *)
Definition unreachable_provider : Hierarchical.Provider :=
  {| Hierarchical.select_model_by_complexity := λ _, Ok "model";
     Hierarchical.chat := λ _ _ _, Raise (Exception "connection refused") |}.

(** The second Belter of a swarm overruns its deadline, the others do
    not. *)
Definition second_is_late : Z → bool := λ i, i =? 1.

(** Twelve Belters, as in the usage example of the source. *)
Definition twelve_agents : Hierarchical.OrchestratorConfig :=
  {| Hierarchical.num_agents := 12; Hierarchical.enable_drummer := true;
     Hierarchical.enable_camina := true; Hierarchical.max_concurrent_agents := 5;
     Hierarchical.belter_timeout := 60 |}.

Definition twelve_responses : list Hierarchical.AgentResponse :=
  replicate 12 failed_belter_response.

(** A configuration that leaves the Belters no time: with a timeout of
    zero seconds [asyncio.wait_for] gives up on their one second of work at
    once. *)
Definition no_time_for_belters : Hierarchical.OrchestratorConfig :=
  {| Hierarchical.num_agents := 5; Hierarchical.enable_drummer := true;
     Hierarchical.enable_camina := true; Hierarchical.max_concurrent_agents := 10;
     Hierarchical.belter_timeout := 0 |}.

(** A workflow of one phase whose agent reports a partial result. *)
Definition one_phase : list Phased.WorkflowPhase :=
  [ {| Phased.name := "Quick Scan"; Phased.dispatch_to := "scanner";
       Phased.purpose := "Fast code quality scan";
       Phased.wait_for_completion := true; Phased.can_run_parallel := false |} ].

Definition partial_executor : Phased.AgentExecutor :=
  λ _ _, Ok {| Phased.reply_status := Some "partial";
               Phased.reply_findings := None; Phased.reply_error := None |}.

(** Nineteen subtasks wanted, between 3 and 20. *)
Definition nineteen_subtasks : Decomposition.DecompositionConfig :=
  {| Decomposition.min_subtasks := 3; Decomposition.max_subtasks := 20;
     Decomposition.target_agent_count := Some 19;
     Decomposition.enable_padding := true; Decomposition.enable_validation := true |}.

(** Five subtasks wanted, as in the first usage example of the source. *)
Definition five_subtasks : Decomposition.DecompositionConfig :=
  {| Decomposition.min_subtasks := 3; Decomposition.max_subtasks := 10;
     Decomposition.target_agent_count := Some 5;
     Decomposition.enable_padding := true; Decomposition.enable_validation := true |}.

(** A stand-in for Python's floats, enough to run [from_dict] on records
    whose numbers are integers: an integer is its own float and no text is
    a number. *)
Definition int_float_of_int : Z → Res Z := Ok.
Definition int_float_of_str : string → Res Z :=
  λ s, Raise (Exception ("could not convert string to float: " +:+ s)).
Definition int_float_truth : Z → bool := λ z, negb (z =? 0).

(** A progress callback that raises whenever it is told about ["task_0"],
    and only then. *)
Definition callback_failing_on_task_0 : ParallelExec.Callback string :=
  λ id _ _, if decide (id = "task_0") then Some "callback failed" else None.

(** A provider whose answer lists a single subtask. *)
Definition one_item_provider : Decomposition.Provider :=
  λ _, Ok "1. Collect the published clinical evidence".

(* ===================================================================== *)
(** * Lemmas *)
(* ===================================================================== *)

(* ---- monad lemmas ---- *)
Section MonadFacts.
Context {E : Type}.

Lemma bind_eq {A B} (c : M E A) (k : A → M E B) log a log' :
  c log = (Ok a, log') → (c ≫= k) log = k a log'.
Proof. intros H. unfold mbind, M_bind, Py.bind. by rewrite H. Qed.

Lemma total_ret {A} (a : A) : total (mret a : M E A).
Proof. intros log. by exists a, log. Qed.

Lemma total_bind {A B} (c : M E A) (k : A → M E B) :
  total c → (∀ a, total (k a)) → total (c ≫= k).
Proof.
  intros Hc Hk log. destruct (Hc log) as (a & log' & Ha).
  rewrite (bind_eq _ _ _ _ _ Ha). apply Hk.
Qed.

Lemma total_emit (ev : E) : total (emit ev).
Proof. intros log. by eexists _, _. Qed.

Lemma total_gather {A} (cs : list (M E A)) : total (gather cs).
Proof.
  induction cs as [|c cs IH]; intros log; [by eexists _, _|].
  simpl. unfold Py.bind, capture. destruct (c log) as [r log1].
  destruct (IH log1) as (rs & log2 & Hrs). rewrite Hrs. by eexists _, _.
Qed.

Lemma gather_length {A} (cs : list (M E A)) log rs log' :
  gather cs log = (Ok rs, log') → length rs = length cs.
Proof.
  revert log rs log'. induction cs as [|c cs IH]; intros log rs log'; simpl.
  - by intros [= <- _].
  - unfold Py.bind, capture. destruct (c log) as [r log1].
    destruct (gather cs log1) as [[rs1|e] log2] eqn:Hg; simpl; [|done].
    intros [= <- _]. simpl. f_equal. by eapply IH.
Qed.

Lemma gather_raising_fmap {A X} (f : X → M E A) (g : X → A) (ev : X → list E) xs :
  (∀ x, x ∈ xs → ∀ log, f x log = (Ok (g x), log ++ ev x)) →
  ∀ log, gather_raising (f <$> xs) log = (Ok (g <$> xs), log ++ concat (ev <$> xs)).
Proof.
  induction xs as [|x xs IH]; intros Hf log; simpl.
  - by rewrite app_nil_r.
  - unfold Py.bind. rewrite Hf by left.
    rewrite IH by (intros; apply Hf; by right).
    unfold Py.ret. by rewrite <- app_assoc.
Qed.

Lemma total_gather_raising {A} (cs : list (M E A)) :
  Forall total cs → total (gather_raising cs).
Proof.
  induction 1 as [|c cs Hc _ IH]; intros log; [by eexists _, _|].
  simpl. unfold Py.bind. destruct (Hc log) as (a & log1 & ->).
  destruct (IH log1) as (rs & log2 & ->). by eexists _, _.
Qed.

Lemma gather_raising_length {A} (cs : list (M E A)) log rs log' :
  gather_raising cs log = (Ok rs, log') → length rs = length cs.
Proof.
  revert log rs log'. induction cs as [|c cs IH]; intros log rs log'; simpl.
  - by intros [= <- _].
  - unfold Py.bind. destruct (c log) as [[a|e] log1]; [|done].
    destruct (gather_raising cs log1) as [[rs1|e] log2] eqn:Hg; [|done].
    intros [= <- _]. simpl. f_equal. by eapply IH.
Qed.
Lemma total_try_catch {A} (body : M E A) (h : Exn → M E A) :
  (∀ e, total (h e)) → total (try_catch body h).
Proof.
  intros Hh log. unfold try_catch. destruct (body log) as [[a|e] log1].
  - by eexists _, _.
  - apply Hh.
Qed.

End MonadFacts.

Section YieldFacts.
Context {E : Type}.

Lemma yields_ret {A} (a : A) : yields (mret a : M E A) a [].
Proof. intros log. unfold mret, M_ret, Py.ret. by rewrite app_nil_r. Qed.

Lemma within_ret {A} (P : E → Prop) (a : A) : returns_within P (mret a : M E A).
Proof. intros log. exists a, []. split; [|done]. apply yields_ret. Qed.

Lemma within_bind {A B} (P : E → Prop) (c : M E A) (k : A → M E B) :
  returns_within P c → (∀ a, returns_within P (k a)) → returns_within P (c ≫= k).
Proof.
  intros Hc Hk log. destruct (Hc log) as (a & evs & Ha & HP).
  destruct (Hk a (log ++ evs)) as (b & evs' & Hb & HP').
  exists b, (evs ++ evs'). rewrite (bind_eq _ _ _ _ _ Ha), Hb, app_assoc.
  split; [done|]. by apply Forall_app.
Qed.

Lemma within_impl {A} (P Q : E → Prop) (c : M E A) :
  (∀ e, P e → Q e) → returns_within P c → returns_within Q c.
Proof.
  intros HPQ Hc log. destruct (Hc log) as (a & evs & Ha & HP).
  exists a, evs. split; [done|]. by eapply Forall_impl.
Qed.

Lemma within_gather_raising {A} (P : E → Prop) (cs : list (M E A)) :
  Forall (returns_within P) cs → returns_within P (gather_raising cs).
Proof.
  induction 1 as [|c cs Hc _ IH]; [apply within_ret|].
  simpl. apply (within_bind P c); [done|]. intros a.
  apply (within_bind P (gather_raising cs)); [done|]. intros rs. apply within_ret.
Qed.

(** Coroutines that each return a value fixed by their position give
    [gather] these values, in their order. *)
Lemma gather_imap_yields {X A} (f : nat → X → M E A) (g : nat → A)
    (ev : nat → list E) (xs : list X) :
  (∀ i x, xs !! i = Some x → yields (f i x) (g i) (ev i)) →
  yields (gather (imap f xs)) (Ok <$> (g <$> seq 0 (length xs)))
    (concat (ev <$> seq 0 (length xs))).
Proof.
  revert f g ev. induction xs as [|x xs IH]; intros f g ev Hf log.
  - simpl. by rewrite app_nil_r.
  - simpl. unfold Py.bind, capture. rewrite (Hf 0%nat x eq_refl).
    rewrite (IH (f ∘ S) (g ∘ S) (ev ∘ S)) by (intros i y Hy; by apply (Hf (S i))).
    unfold Py.ret. rewrite <- !fmap_S_seq, <- !list_fmap_compose.
    by rewrite app_assoc.
Qed.

Lemma within_emits {A} (P : E → Prop) (c : M E A) :
  returns_within P c → emits_only P c.
Proof.
  intros Hc log. destruct (Hc log) as (a & evs & ? & ?). by exists (Ok a), evs.
Qed.

Lemma emits_ret {A} (P : E → Prop) (a : A) : emits_only P (mret a : M E A).
Proof. apply within_emits, within_ret. Qed.

Lemma emits_raise {A} (P : E → Prop) e : emits_only P (raise e : M E A).
Proof. intros log. exists (Raise e), []. by rewrite app_nil_r. Qed.

Lemma emits_lift {A} (P : E → Prop) (r : Res A) : emits_only P (lift r : M E A).
Proof. destruct r; [apply emits_ret|apply emits_raise]. Qed.

Lemma emits_emit (P : E → Prop) ev : P ev → emits_only P (emit ev).
Proof. intros HP log. exists (Ok tt), [ev]. split; [done|]. by constructor. Qed.

Lemma emits_bind {A B} (P : E → Prop) (c : M E A) (k : A → M E B) :
  emits_only P c → (∀ a, emits_only P (k a)) → emits_only P (c ≫= k).
Proof.
  intros Hc Hk log. unfold mbind, M_bind, Py.bind.
  destruct (Hc log) as ([a|e] & evs & -> & HP).
  - destruct (Hk a (log ++ evs)) as (r & evs' & -> & HP').
    exists r, (evs ++ evs'). rewrite app_assoc. split; [done|]. by apply Forall_app.
  - by exists (Raise e), evs.
Qed.

Lemma emits_gather_raising {A} (P : E → Prop) (cs : list (M E A)) :
  Forall (emits_only P) cs → emits_only P (gather_raising cs).
Proof.
  induction 1 as [|c cs Hc _ IH]; [apply emits_ret|].
  simpl. apply (emits_bind P c); [done|]. intros a.
  apply (emits_bind P (gather_raising cs)); [done|]. intros rs. apply emits_ret.
Qed.

Lemma within_try_catch {A} (P : E → Prop) (body : M E A) h :
  emits_only P body → (∀ e, returns_within P (h e)) →
  returns_within P (try_catch body h).
Proof.
  intros Hb Hh log. unfold try_catch.
  destruct (Hb log) as ([a|e] & evs & -> & HP).
  - by exists a, evs.
  - destruct (Hh e (log ++ evs)) as (a & evs' & -> & HP').
    exists a, (evs ++ evs'). rewrite app_assoc. split; [done|]. by apply Forall_app.
Qed.
End YieldFacts.

Section Ensures.
Context {E : Type}.

Lemma ensures_ret {A} (a : A) (P : A → Prop) : P a → ensures (mret a : M E A) P.
Proof. intros H log. by exists a, log. Qed.

Lemma ensures_bind {A B} (c : M E A) (k : A → M E B) P Q :
  ensures c P → (∀ a, P a → ensures (k a) Q) → ensures (c ≫= k) Q.
Proof.
  intros Hc Hk log. destruct (Hc log) as (a & log' & Ha & HP).
  rewrite (bind_eq _ _ _ _ _ Ha). by apply Hk.
Qed.

Lemma ensures_total {A} (c : M E A) : total c → ensures c (λ _, True).
Proof. intros H log. destruct (H log) as (a & l & ->). by eexists _, _. Qed.

Lemma ensures_try_catch {A} (body : M E A) h P :
  ensures body P → ensures (try_catch body h) P.
Proof.
  intros H log. destruct (H log) as (a & l & Ha & HP).
  unfold try_catch. rewrite Ha. by eexists _, _.
Qed.

Lemma ensures_gather_raising {A} (cs : list (M E A)) P :
  Forall (λ c, ensures c P) cs → ensures (gather_raising cs) (Forall P).
Proof.
  induction 1 as [|c cs Hc _ IH]; intros log; [by eexists _, _|].
  simpl. unfold Py.bind. destruct (Hc log) as (a & log1 & -> & Ha).
  destruct (IH log1) as (rs & log2 & -> & Hrs). eexists _, _. split; [done|].
  by constructor.
Qed.
End Ensures.

Section PhasedFacts.
Import Phased.
Variable self_name : string.
Variable agent_executor : AgentExecutor.
Variable get_workflow_phases : string → Res (list WorkflowPhase).

Lemma execute_agent_total agent ctx : total (execute_agent agent_executor agent ctx).
Proof.
  apply total_try_catch. intros e. apply total_bind; [apply total_emit|].
  intros _. apply total_ret.
Qed.

Lemma execute_phase_known phase ctx :
  ensures (_execute_phase agent_executor phase ctx) known_status.
Proof.
  apply ensures_try_catch.
  eapply ensures_bind; [apply ensures_total, execute_agent_total|].
  intros reply _. apply ensures_ret. unfold known_status. simpl.
  repeat case_decide; set_solver.
Qed.

Lemma sequential_loop_known phases results ctx :
  Forall known_status results →
  ensures (sequential_loop agent_executor phases results ctx) (Forall known_status).
Proof.
  revert results ctx. induction phases as [|phase rest IH]; intros results ctx Hres.
  - by apply ensures_ret.
  - simpl. eapply ensures_bind; [apply ensures_total, total_emit|]. intros _ _.
    eapply ensures_bind; [apply execute_phase_known|]. intros r Hr.
    assert (Forall known_status (results ++ [r])) by (apply Forall_app; auto).
    destruct (bool_decide (status r = "failed") && wait_for_completion phase).
    + eapply ensures_bind; [apply ensures_total, total_emit|]. intros _ _.
      by apply ensures_ret.
    + by apply IH.
Qed.

Lemma overall_status_success l :
  overall_status l = "success" ↔ Forall (λ s, s = "success") l.
Proof.
  unfold overall_status.
  destruct (forallb _ l) eqn:Hall.
  - split; [|done]. intros _. apply Forall_forall. intros s Hs.
    rewrite forallb_forall in Hall. apply list_elem_of_In in Hs.
    apply Hall in Hs. by apply bool_decide_eq_true in Hs.
  - split.
    + repeat destruct (existsb _ l); discriminate.
    + intros HF. exfalso. assert (forallb (λ s, bool_decide (s = "success")) l = true).
      { apply forallb_forall. intros s Hs. apply bool_decide_eq_true.
        rewrite Forall_forall in HF. apply HF. by apply list_elem_of_In. }
      congruence.
Qed.

Lemma existsb_Exists_eq (x : string) l :
  existsb (λ s, bool_decide (s = x)) l = true ↔ Exists (λ s, s = x) l.
Proof.
  rewrite existsb_exists, Exists_exists. split.
  - intros (s & Hin & Hs). exists s. split; [by apply list_elem_of_In|].
    by apply bool_decide_eq_true in Hs.
  - intros (s & Hin & Hs). exists s. split; [by apply list_elem_of_In|].
    by apply bool_decide_eq_true.
Qed.

Lemma overall_status_failed l :
  overall_status l = "failed"
  ↔ Exists (λ s, s = "failed") l ∧ Forall (λ s, s ≠ "success") l.
Proof.
  unfold overall_status.
  destruct (forallb _ l) eqn:Hall.
  - split; [done|]. intros [Hex Hno]. exfalso.
    rewrite forallb_forall in Hall. apply Exists_exists in Hex as (s & Hin & ->).
    apply list_elem_of_In, Hall in Hin. by apply bool_decide_eq_true in Hin.
  - destruct (existsb (λ s, bool_decide (s = "failed")) l) eqn:Hf.
    + apply existsb_Exists_eq in Hf.
      destruct (existsb (λ s, bool_decide (s = "success")) l) eqn:Hs.
      * apply existsb_Exists_eq in Hs. split; [done|]. intros [_ Hno]. exfalso.
        apply Exists_exists in Hs as (s & Hin & ->).
        rewrite Forall_forall in Hno. by apply (Hno _ Hin).
      * split; [|done]. intros _. split; [done|].
        apply Forall_forall. intros s Hin ->.
        assert (existsb (λ s, bool_decide (s = "success")) l = true); [|congruence].
        apply existsb_Exists_eq. apply Exists_exists. eauto.
    + split; [done|]. intros [Hex _]. apply existsb_Exists_eq in Hex. congruence.
Qed.

Lemma overall_status_partial l :
  overall_status l = "partial"
  ↔ ¬ Forall (λ s, s = "success") l
    ∧ (Exists (λ s, s = "success") l ∨ ¬ Exists (λ s, s = "failed") l).
Proof.
  pose proof (overall_status_success l) as Hs.
  unfold overall_status in *.
  destruct (forallb _ l) eqn:Hall.
  - split; [done|]. intros [Hn _]. destruct Hn. by apply Hs.
  - assert (¬ Forall (λ s, s = "success") l) as Hn.
    { intros HF. apply Hs in HF. revert HF. repeat destruct (existsb _ l); discriminate. }
    destruct (existsb (λ s, bool_decide (s = "failed")) l) eqn:Hf.
    + destruct (existsb (λ s, bool_decide (s = "success")) l) eqn:Hsu.
      * split; [|done]. intros _. split; [done|]. left. by apply existsb_Exists_eq.
      * split; [done|]. intros [_ [Hex|Hno]].
        -- apply existsb_Exists_eq in Hex. congruence.
        -- destruct Hno. by apply existsb_Exists_eq.
    + split; [|done]. intros _. split; [done|]. right. intros Hex.
      apply existsb_Exists_eq in Hex. congruence.
Qed.

Lemma run_completes stamp project mode agents phases :
  get_workflow_phases mode = Ok phases →
  ∃ r log,
    Py.run (run self_name agent_executor get_workflow_phases stamp project mode agents)
    = (Ok r, log)
    ∧ Forall known_status (phase_results r)
    ∧ run_status r = overall_status (status <$> phase_results r).
Proof.
  intros Hph. unfold Py.run, run.
  match goal with |- context [try_catch ?b ?h] =>
    assert (ensures b (λ r, Forall known_status (phase_results r)
              ∧ run_status r = overall_status (status <$> phase_results r))) as Hb end.
  { rewrite Hph. eapply ensures_bind; [by apply (ensures_ret _ (λ _, True))|].
    intros ? _.
    match goal with |- context [filter (λ p, can_run_parallel p = false) ?l] =>
      generalize l end.
    intros all_phases.
    eapply (ensures_bind _ _ (λ x, Forall known_status x.1)).
    { destruct (filter _ all_phases) as [|p0 seqs]; [by apply ensures_ret|].
      eapply ensures_bind; [by apply sequential_loop_known|].
      intros rs Hrs. by apply ensures_ret. }
    intros [rs ctx] Hrs. simpl in Hrs.
    eapply (ensures_bind _ _ (Forall known_status)).
    { destruct (filter (λ p, can_run_parallel p = true) all_phases) as [|p0 pars].
      - by apply ensures_ret.
      - eapply ensures_bind.
        + apply (ensures_gather_raising _ known_status). apply Forall_fmap, Forall_forall.
          intros ph _. apply execute_phase_known.
        + intros prs Hprs. apply ensures_ret. by apply Forall_app. }
    intros prs Hprs. by apply ensures_ret. }
  destruct (Hb []) as (r & log & Hr & HP1 & HP2).
  unfold try_catch. rewrite Hr. by eexists _, _.
Qed.
End PhasedFacts.

Section Chunks.
Context {A : Type}.
Implicit Types l : list A.

Lemma chunks_concat fuel l : (length l ≤ fuel)%nat → concat (chunks fuel l) = l.
Proof.
  revert l. induction fuel as [|fuel IH]; intros l Hl.
  - destruct l; simpl in *; [done|lia].
  - destruct l as [|a l']; [done|].
    change (concat (chunks (S fuel) (a :: l'))) with
      (take 5 (a :: l') ++ concat (chunks fuel (drop 5 (a :: l')))).
    rewrite IH; [apply take_drop|]. rewrite length_drop. simpl in *. lia.
Qed.

Lemma chunks_length fuel l :
  (length l ≤ fuel)%nat → length (chunks fuel l) = ((length l + 4) / 5)%nat.
Proof.
  revert l. induction fuel as [|fuel IH]; intros l Hl.
  - destruct l; simpl in *; [done|lia].
  - destruct l as [|a l']; [done|].
    change (length (chunks (S fuel) (a :: l'))) with
      (S (length (chunks fuel (drop 5 (a :: l'))))).
    rewrite IH by (rewrite length_drop; simpl in *; lia).
    rewrite length_drop.
    set (n := length (a :: l')). assert (1 ≤ n)%nat by (subst n; simpl; lia).
    clearbody n.
    destruct (decide (n ≤ 5)%nat).
    + replace (n - 5)%nat with 0%nat by lia.
      assert ((n + 4) / 5 = 1)%nat as ->; [|done].
      symmetry. apply Nat.div_unique with (r := (n - 1)%nat); lia.
    + replace (n + 4)%nat with ((n - 5 + 4) + 1 * 5)%nat by lia.
      rewrite Nat.div_add by lia. lia.
Qed.

Lemma chunks_sizes fuel l : Forall (λ g, 1 ≤ length g ≤ 5)%nat (chunks fuel l).
Proof.
  revert l. induction fuel as [|fuel IH]; intros l; [constructor|].
  destruct l as [|a l']; [constructor|].
  constructor; [|apply IH].
  rewrite length_take, length_cons. lia.
Qed.

Lemma chunks_full fuel l i g :
  chunks fuel l !! i = Some g → (S i < length (chunks fuel l))%nat →
  length g = 5%nat.
Proof.
  revert l i. induction fuel as [|fuel IH]; intros l i; [done|].
  destruct l as [|a l']; [done|].
  change (chunks (S fuel) (a :: l'))
    with (take 5 (a :: l') :: chunks fuel (drop 5 (a :: l'))).
  destruct i as [|i]; simpl.
  - intros [= <-] Hlen.
    destruct fuel as [|fuel]; [simpl in Hlen; lia|].
    destruct l' as [|? [|? [|? [|? [|? ?]]]]]; simpl in Hlen; try lia. done.
  - intros Hg Hlen. apply (IH (drop 4 l') i); [done|lia].
Qed.
End Chunks.

Section Groups.
Import Hierarchical.

Lemma groups_from_chunks (rs : list AgentResponse) (fuel : nat) (i : nat) :
  (λ j, slice rs j (j + 5)) <$> range_from fuel (Z.of_nat i) (len rs) 5
  = chunks fuel (drop i rs).
Proof.
  revert i. induction fuel as [|fuel IH]; intros i; [done|].
  simpl. unfold len. destruct (Z.ltb_spec (Z.of_nat i) (Z.of_nat (length rs))) as [Hlt|Hge].
  - destruct (drop i rs) as [|r rest] eqn:Hd.
    { apply (f_equal length) in Hd. rewrite length_drop in Hd. simpl in Hd. lia. }
    rewrite <- Hd. simpl. f_equal.
    + unfold slice. rewrite Nat2Z.id. f_equal. lia.
    + replace (Z.of_nat i + 5) with (Z.of_nat (i + 5)) by lia.
      rewrite IH. by rewrite drop_drop.
  - rewrite drop_ge by lia. done.
Qed.

Lemma belter_groups_chunks (rs : list AgentResponse) :
  belter_groups rs = chunks (length rs) rs.
Proof.
  unfold belter_groups, range_step.
  replace (len rs - 0) with (len rs) by lia. unfold len at 1. rewrite Nat2Z.id.
  apply (groups_from_chunks rs (length rs) 0).
Qed.
End Groups.

Section HierarchicalFacts.
Import Hierarchical.

Lemma context_get_some {A} p (ctx : Context) t (field : Context → option A) d v :
  field ctx = Some v → has_keys ctx = true →
  context_get {| prompt := p; context := Some ctx; timeout_seconds := t |} field d = v.
Proof. intros Hf Hk. unfold context_get. simpl. by rewrite Hk, Hf. Qed.

Lemma synthesize_nonempty id g q log :
  g ≠ [] →
  synthesize_belter_results (DrummerAgent_execute_task id) g q log
  = (Ok (drummer_response id g), log ++ [Worked id]).
Proof.
  intros Hg. unfold synthesize_belter_results, DrummerAgent_execute_task, try_catch.
  rewrite (context_get_some _ _ _ _ _ g) by done.
  destruct (decide (g = [])) as [?|_]; [done|]. done.
Qed.

Lemma drummers_length ds rs task log out log' :
  _execute_drummers_parallel ds rs task log = (Ok out, log') →
  (length out ≤ length ds)%nat.
Proof.
  intros H. apply gather_raising_length in H. rewrite H, length_fmap.
  etrans; [apply length_filter|]. rewrite length_zip. lia.
Qed.
End HierarchicalFacts.

Section SynthesisFacts.
Import Hierarchical.

Lemma zip_seq_imap {A B} (f : nat → A) (l : list B) j k :
  (length l ≤ k)%nat →
  zip (f <$> seq j k) l = imap (λ i b, (f (j + i)%nat, b)) l.
Proof.
  revert j k. induction l as [|b l IH]; intros j k Hk.
  - by destruct k.
  - destruct k as [|k]; [simpl in Hk; lia|]. simpl. f_equal.
    + f_equal. f_equal. lia.
    + rewrite IH by (simpl in Hk; lia). apply imap_ext. intros i x _. simpl.
      do 2 f_equal. lia.
Qed.

Lemma filter_Forall_id {A} (P : A → Prop) `{!∀ x, Decision (P x)} (l : list A) :
  Forall P l → filter P l = l.
Proof.
  induction 1 as [|x l Hx _ IH]; [done|].
  rewrite filter_cons_True by done. by f_equal.
Qed.

Lemma belter_groups_nonempty rs : Forall (λ g, g ≠ []) (belter_groups rs).
Proof.
  rewrite belter_groups_chunks.
  eapply Forall_impl; [apply chunks_sizes|]. intros g Hg ->. simpl in Hg. lia.
Qed.

Lemma concat_singletons_imap {B C} (h : nat → C) (k : nat → nat) (l : list B) :
  concat ((λ '(i, _), [h i]) <$> imap (λ i (g : B), (k i, g)) l)
  = imap (λ i _, h (k i)) l.
Proof.
  revert k. induction l as [|g l IH]; intros k; [done|].
  simpl. f_equal. apply (IH (k ∘ S)).
Qed.

Lemma base_drummers_run cfg late num rs task log :
  enable_drummer cfg = true → len rs ≤ num →
  ∃ sw, _create_agent_swarm cfg late num log = (Ok sw, log)
    ∧ _execute_drummers_parallel (drummers sw) rs task log
      = (Ok (imap (λ i g, drummer_response (drummer_name i) g) (belter_groups rs)),
         log ++ imap (λ i _, Worked (drummer_name i)) (belter_groups rs)).
Proof.
  intros Hed Hnum. eexists. split; [reflexivity|]. simpl. rewrite Hed.
  unfold _execute_drummers_parallel, range. rewrite <- list_fmap_compose.
  rewrite zip_seq_imap; last first.
  { rewrite belter_groups_chunks, chunks_length by done.
    unfold len in Hnum.
    apply Nat2Z.inj_le. rewrite Z2Nat.id by (apply Z.div_pos; lia).
    rewrite Nat2Z.inj_div. apply Z.div_le_mono; lia. }
  rewrite filter_Forall_id; last first.
  { apply Forall_forall. intros [d g] Hin.
    apply elem_of_lookup_imap in Hin as (i & g' & [= _ ->] & Hg).
    pose proof (belter_groups_nonempty rs) as Hne.
    rewrite Forall_forall in Hne. apply Hne. by eapply list_elem_of_lookup_2. }
  rewrite fmap_imap.
  transitivity
    (gather_raising
       ((λ '(i, g), synthesize_belter_results
                      (DrummerAgent_execute_task (drummer_name i)) g (Some task))
        <$> imap (λ i g, (i, g)) (belter_groups rs)) log).
  { f_equal. rewrite fmap_imap. by apply imap_ext. }
  rewrite (gather_raising_fmap _
             (λ '(i, g), drummer_response (drummer_name i) g)
             (λ '(i, _), [Worked (drummer_name i)])).
  - rewrite (concat_singletons_imap (λ i, Worked (drummer_name i)) id).
    by rewrite fmap_imap.
  - intros [i g] Hin l.
    apply elem_of_lookup_imap in Hin as (i' & g' & [= -> ->] & Hg).
    apply synthesize_nonempty.
    pose proof (belter_groups_nonempty rs) as Hne.
    rewrite Forall_forall in Hne. apply Hne. by eapply list_elem_of_lookup_2.
Qed.
End SynthesisFacts.

Section ParallelFacts.
Import ParallelExec.
Context {T : Type}.

Lemma notify_quiet (cb : option (Callback T)) id st data log :
  quiet_callback cb → ∃ evs, notify cb id st data log = (Ok tt, log ++ evs).
Proof.
  intros Hq. unfold notify. destruct cb as [f|].
  - unfold mbind, M_bind, Py.bind, emit. rewrite (Hq f eq_refl). by eexists.
  - exists []. by rewrite app_nil_r.
Qed.

Lemma first_pass_quiet cfg id (o : Outcome T) (cb : option (Callback T)) log :
  quiet_callback cb →
  ∃ evs, _execute_with_limit_and_timeout cfg id o cb log
         = (Ok (first_pass_result cfg id o), log ++ evs).
Proof.
  intros Hq. unfold _execute_with_limit_and_timeout.
  destruct (notify_quiet cb id RUNNING NoData log Hq) as [e1 H1].
  rewrite (bind_eq _ _ _ _ _ H1). unfold try_catch, wait_for.
  destruct o as [v| |msg]; unfold mbind, M_bind, Py.bind, emit, raise, mret, M_ret, Py.ret.
  - destruct (notify_quiet cb id COMPLETED (ResultData v) ((log ++ e1) ++ [Invoked id]) Hq)
      as [e2 H2].
    rewrite H2. eexists. simpl. by rewrite <- !app_assoc.
  - destruct (notify_quiet cb id TIMEOUT NoData ((log ++ e1) ++ [Invoked id]) Hq)
      as [e2 H2].
    rewrite H2. eexists. simpl. by rewrite <- !app_assoc.
  - destruct (notify_quiet cb id FAILED (ErrorData msg) ((log ++ e1) ++ [Invoked id]) Hq)
      as [e2 H2].
    rewrite H2. eexists. simpl. by rewrite <- !app_assoc.
Qed.

Lemma first_pass_none cfg id (o : Outcome T) log :
  _execute_with_limit_and_timeout cfg id o None log
  = (Ok (first_pass_result cfg id o), log ++ [Invoked id]).
Proof. by destruct o. Qed.

Lemma gather_imap_ok {E X A} (f : nat → X → M E A) (g : nat → X → A) (xs : list X) :
  (∀ i x log, xs !! i = Some x → ∃ evs, f i x log = (Ok (g i x), log ++ evs)) →
  ∀ log, ∃ evs, gather (imap f xs) log = (Ok (Ok <$> imap g xs), log ++ evs).
Proof.
  revert f g. induction xs as [|x xs IH]; intros f g Hf log.
  - exists []. simpl. by rewrite app_nil_r.
  - simpl. unfold Py.bind, capture.
    destruct (Hf 0%nat x log eq_refl) as [e1 ->].
    destruct (IH (f ∘ S) (g ∘ S) (λ i y l Hy, Hf (S i) y l Hy) (log ++ e1)) as [e2 ->].
    exists (e1 ++ e2). unfold Py.ret. by rewrite <- app_assoc.
Qed.

Lemma process_results_ok cfg (tasks : list (Task T)) task_args i
    (rs : list (ExecutionResult T)) acc retry log :
  process_results cfg tasks task_args i (Ok <$> rs) acc retry log
  = (Ok (acc ++ rs, retry), log).
Proof.
  revert i acc. induction rs as [|r rs IH]; intros i acc; simpl.
  - by rewrite app_nil_r.
  - rewrite IH. by rewrite <- app_assoc.
Qed.

(** With no callback, or one that never raises, the first pass decides
    every result and no retry is queued. *)
Lemma execute_parallel_quiet cfg (tasks : list (Task T)) task_args cb :
  quiet_callback cb →
  ∃ log, run (execute_parallel cfg tasks task_args cb)
    = (Ok (imap (λ i '(task, args), first_pass_result cfg (task_name i) (task args 0))
             (zip tasks (default (replicate (length tasks) []) task_args))), log).
Proof.
  intros Hq. unfold run, execute_parallel.
  set (ps := zip tasks _).
  destruct (gather_imap_ok
    (λ i '(task, args), _execute_with_limit_and_timeout cfg (task_name i) (task args 0) cb)
    (λ i '(task, args), first_pass_result cfg (task_name i) (task args 0)) ps) with (log := @nil Event)
    as [evs Hg].
  { intros i [task args] log _. by apply first_pass_quiet. }
  unfold task_name in Hg. rewrite (bind_eq _ _ _ _ _ Hg).
  cbv beta. erewrite bind_eq by apply process_results_ok.
  simpl. by eexists.
Qed.
End ParallelFacts.

Section NoCallbackFacts.
Import ParallelExec.
Context {T : Type}.

Lemma gather_imap_events {E X A} (f : nat → X → M E A) (g : nat → X → A)
    (ev : nat → E) (xs : list X) :
  (∀ i x log, f i x log = (Ok (g i x), log ++ [ev i])) →
  ∀ log, gather (imap f xs) log
         = (Ok (Ok <$> imap g xs), log ++ imap (λ i _, ev i) xs).
Proof.
  revert f g ev. induction xs as [|x xs IH]; intros f g ev Hf log.
  - simpl. by rewrite app_nil_r.
  - simpl. unfold Py.bind, capture. rewrite Hf.
    rewrite (IH (f ∘ S) (g ∘ S) (ev ∘ S)) by (intros; apply Hf).
    unfold Py.ret. by rewrite <- app_assoc.
Qed.

(** With no callback at all, the log shows one call per unit of work and
    nothing else: no retry and no delay. *)
Lemma execute_parallel_no_callback cfg (tasks : list (Task T)) task_args :
  let ps := zip tasks (default (replicate (length tasks) []) task_args) in
  run (execute_parallel cfg tasks task_args None)
  = (Ok (imap (λ i '(task, args), first_pass_result cfg (task_name i) (task args 0)) ps),
     imap (λ i _, Invoked (task_name i)) ps).
Proof.
  intros ps. unfold run, execute_parallel. fold ps.
  erewrite bind_eq; last first.
  { apply (gather_imap_events _
      (λ i '(task, args), first_pass_result cfg (task_name i) (task args 0))
      (λ i, Invoked (task_name i))).
    intros i [task args] log. apply first_pass_none. }
  cbv beta. erewrite bind_eq by apply process_results_ok. done.
Qed.

Lemma zip_replicate_r {A B} (l : list A) (b : B) :
  zip l (replicate (length l) b) = (λ a, (a, b)) <$> l.
Proof. induction l; simpl; by f_equal. Qed.
End NoCallbackFacts.

Section Tier1Facts.
Import Hierarchical.

Lemma keep_responses_spec results acc log :
  ∃ log', keep_responses results acc log = (Ok (acc ++ omap ok_of results), log').
Proof.
  revert acc log. induction results as [|[r|e] results IH]; intros acc log; simpl.
  - eexists. by rewrite app_nil_r.
  - destruct (IH (acc ++ [r]) log) as [log' ->]. eexists. by rewrite <- app_assoc.
  - unfold mbind, M_bind, Py.bind, emit. apply IH.
Qed.

Lemma gather_lookup {E A} (cs : list (M E A)) log rs log' i c a :
  gather cs log = (Ok rs, log') → cs !! i = Some c →
  (∀ l, ∃ l', c l = (Ok a, l')) → rs !! i = Some (Ok a).
Proof.
  revert log rs i. induction cs as [|c0 cs IH]; intros log rs i; [done|].
  simpl. unfold Py.bind, capture. destruct (c0 log) as [r log1] eqn:Hc0.
  destruct (gather cs log1) as [[rs1|e] log2] eqn:Hg; simpl; [|done].
  intros [= <- <-] Hi Hc. destruct i as [|i]; simpl in *.
  - injection Hi as ->. destruct (Hc log) as [l' Hl]. rewrite Hl in Hc0.
    by injection Hc0 as <- _.
  - by eapply IH.
Qed.

Lemma execute_with_limit_overrun cfg task b idx :
  (∀ t, b_execute_task b t = Overrun) →
  ∀ l, execute_with_limit cfg task b idx l = (Ok (timeout_response cfg b), l).
Proof. intros Hb l. unfold execute_with_limit, try_catch. by rewrite Hb. Qed.

Lemma tier1_overrun_recorded cfg bs task i b :
  0 < max_concurrent_agents cfg → bs !! i = Some b →
  (∀ t, b_execute_task b t = Overrun) →
  ∃ rs log, run (_execute_belters_parallel cfg bs task) = (Ok rs, log)
            ∧ timeout_response cfg b ∈ rs.
Proof.
  intros Hc Hi Hb. unfold run, _execute_belters_parallel, Semaphore.
  destruct (Z.ltb_spec (max_concurrent_agents cfg) 0); [lia|].
  rewrite (bind_eq _ _ [] tt []) by done.
  destruct (total_gather (imap (λ idx agent, execute_with_limit cfg task agent idx) bs) [])
    as (results & log1 & Hg).
  rewrite (bind_eq _ _ _ _ _ Hg).
  destruct (keep_responses_spec results [] log1) as [log2 ->].
  eexists _, _. split; [done|]. simpl.
  apply list_elem_of_omap. exists (Ok (timeout_response cfg b)). split; [|done].
  apply list_elem_of_lookup. exists i.
  eapply gather_lookup; [exact Hg| |].
  - rewrite list_lookup_imap, Hi. done.
  - intros l. eexists. by apply execute_with_limit_overrun.
Qed.
End Tier1Facts.

Section DrummerFacts.
Import Hierarchical.

Lemma filter_Forall_not {A} (P : A → Prop) `{!∀ x, Decision (P x)} (l : list A) :
  Forall (λ x, ¬ P x) l → filter P l = [].
Proof.
  induction 1 as [|x l Hx _ IH]; [done|]. by rewrite filter_cons_False.
Qed.

Lemma drummer_empty id task :
  context_get task belter_responses [] = [] →
  run (DrummerAgent_execute_task id task)
  = (Ok (_create_response id "" FAILED [] None
           (Some "No Belter responses provided for synthesis")), []).
Proof.
  intros H. unfold run, DrummerAgent_execute_task, try_catch. rewrite H. done.
Qed.

Lemma drummer_nonempty id task :
  context_get task belter_responses [] ≠ [] →
  run (DrummerAgent_execute_task id task)
  = (Ok (drummer_response id (context_get task belter_responses [])), [Worked id]).
Proof.
  intros H. unfold run, DrummerAgent_execute_task, try_catch.
  destruct (decide (context_get task belter_responses [] = [])); done.
Qed.

Lemma realllm_drummer_none_completed model p id task ctx :
  context task = Some ctx →
  Forall (λ r, status r ≠ COMPLETED) (default [] (belter_responses ctx)) →
  let user_prompt := drummer_user_prompt (prompt task) "" in
  run (RealLLMDrummerAgent_execute_task model p id task)
  = match model_or_select p model user_prompt with
    | Raise e => (Ok (_create_response id "" FAILED [] None (Some (str_of_exn e))), [])
    | Ok m =>
        (Ok match chat p user_prompt drummer_system_prompt m with
            | Ok answer => _create_response id answer COMPLETED [] None None
            | Raise e => _create_response id "" FAILED [] None (Some (str_of_exn e))
            end,
         [Chatted id user_prompt])
    end.
Proof.
  intros Hctx Hnone up. unfold run, RealLLMDrummerAgent_execute_task, try_catch.
  rewrite Hctx. rewrite (bind_eq _ _ [] (default [] (belter_responses ctx)) []) by done.
  rewrite filter_Forall_not by done. simpl gather_raising.
  rewrite (bind_eq _ _ [] [] []) by done. simpl join. fold up.
  destruct (model_or_select p model up) as [m|e]; [|done].
  rewrite (bind_eq _ _ [] m []) by done.
  unfold mbind, M_bind, Py.bind, emit. simpl.
  destruct (chat p up drummer_system_prompt m); done.
Qed.
End DrummerFacts.

Section DataModelFacts.
Import DataModels.
Context {F : Type}.
Variable float_of_int : Z → Res F.
Variable float_of_str : string → Res F.
Variable float_truth : F → bool.
Variable zero : F.

#[local] Abbreviation from_dict := (from_dict float_of_int float_of_str float_truth zero).
#[local] Abbreviation float := (float float_of_int float_of_str).

Lemma status_unrecognised s :
  (∀ m, TaskStatus_value m ≠ s) →
  ∃ e, TaskStatus_of_value (F := F) (PyStr s) = Raise e.
Proof.
  intros Hs. unfold TaskStatus_of_value.
  pose proof (Hs PENDING). pose proof (Hs RUNNING). pose proof (Hs COMPLETED).
  pose proof (Hs FAILED). pose proof (Hs CANCELLED). simpl in *.
  repeat (case_bool_decide; [done|]). by eexists.
Qed.

Lemma agent_type_unrecognised s :
  (∀ m, AgentType_value m ≠ s) →
  ∃ e, AgentType_of_value (F := F) (PyStr s) = Raise e.
Proof.
  intros Hs. unfold AgentType_of_value.
  pose proof (Hs WORKER). pose proof (Hs SYNTHESIZER). pose proof (Hs EXECUTIVE).
  pose proof (Hs MONITOR). pose proof (Hs SPECIALIZED). simpl in *.
  repeat (case_bool_decide; [done|]). by eexists.
Qed.

Lemma from_dict_ok_iff (d : gmap string (PyValue (F := F))) :
  (∃ r, from_dict (Some d) = Ok r)
  ↔ (∃ t c, float (get d "execution_time" (PyFloat zero)) = Ok t
            ∧ float (get d "cost" (PyFloat zero)) = Ok c).
Proof.
  unfold DataModels.from_dict.
  destruct (float (get d "execution_time" (PyFloat zero))) as [t|e];
    destruct (float (get d "cost" (PyFloat zero))) as [c|e']; split;
    try (intros [? [=]]); try (intros (? & ? & [=] & [=])); eauto.
Qed.

Lemma from_dict_coerces (d : gmap string (PyValue (F := F))) r :
  from_dict (Some d) = Ok r →
  (∀ s, d !! "status" = Some (PyStr s) → (∀ m, TaskStatus_value m ≠ s) →
        status r = COMPLETED)
  ∧ (∀ s, d !! "agent_type" = Some (PyStr s) → (∀ m, AgentType_value m ≠ s) →
          agent_type r = WORKER).
Proof.
  unfold DataModels.from_dict.
  destruct (float (get d "execution_time" (PyFloat zero))) as [t|e]; [|done].
  destruct (float (get d "cost" (PyFloat zero))) as [c|e']; [|done].
  intros [= <-]. cbn [status agent_type].
  split; intros s Hs Hun; unfold get; rewrite Hs; cbn [from_option id].
  - by destruct (status_unrecognised s Hun) as [e ->].
  - by destruct (agent_type_unrecognised s Hun) as [e ->].
Qed.
End DataModelFacts.

Section StringFacts.
Lemma append_cons a s t : String a s +:+ t = String a (s +:+ t).
Proof. done. Qed.

Lemma length_append s t :
  String.length (s +:+ t) = (String.length s + String.length t)%nat.
Proof. induction s as [|a s IH]; [done|]. rewrite append_cons. simpl. by rewrite IH. Qed.

(** Two texts with the same ending are equal only if their beginnings
    are. *)
Lemma append_inj_l t s1 s2 : s1 +:+ t = s2 +:+ t → s1 = s2.
Proof.
  revert s2. induction s1 as [|a s1 IH]; intros [|b s2] H.
  - done.
  - apply (f_equal String.length) in H. rewrite !length_append in H. simpl in H. lia.
  - apply (f_equal String.length) in H. rewrite !length_append in H. simpl in H. lia.
  - rewrite !append_cons in H. injection H as -> H. f_equal. by apply IH.
Qed.

End StringFacts.

Section DecompositionFacts.
Import Decomposition.

Lemma long_enough_nonempty s : long_enough s → s ≠ "".
Proof. intros H ->. unfold long_enough in H. by vm_compute in H. Qed.

Lemma validate_go_spec subtasks validated :
  NoDup validated → Forall long_enough validated →
  ∃ kept, validate_go subtasks validated = validated ++ kept
          ∧ kept `sublist_of` subtasks
          ∧ NoDup (validated ++ kept) ∧ Forall long_enough (validated ++ kept).
Proof.
  revert validated. induction subtasks as [|s rest IH]; intros validated Hnd Hlong.
  - exists []. rewrite app_nil_r. by repeat split.
  - simpl. destruct (Z.ltb_spec (str_len (strip s)) 10) as [Hshort|Hok].
    { destruct (IH validated Hnd Hlong) as (kept & -> & Hsub & ? & ?).
      exists kept. repeat split; [by apply sublist_cons|done..]. }
    case_bool_decide as Hin.
    { destruct (IH validated Hnd Hlong) as (kept & -> & Hsub & ? & ?).
      exists kept. repeat split; [by apply sublist_cons|done..]. }
    destruct (IH (validated ++ [s])) as (kept & -> & Hsub & ? & ?).
    { apply NoDup_app. repeat split; [done| |apply NoDup_singleton].
      intros x Hx Hx'. apply list_elem_of_singleton in Hx' as ->. done. }
    { apply Forall_app. split; [done|]. by constructor. }
    exists (s :: kept). rewrite <- !app_assoc in *. simpl in *.
    repeat split; [by apply sublist_skip|done..].
Qed.

Lemma validate_spec subtasks task :
  let validated := _validate_subtasks subtasks task in
  validated `sublist_of` subtasks ∧ NoDup validated ∧ Forall long_enough validated.
Proof.
  destruct (validate_go_spec subtasks []) as (kept & H & ? & ? & ?);
    [constructor|constructor|].
  unfold _validate_subtasks. rewrite H. simpl in *. done.
Qed.

Lemma range_lookup n i :
  (i < Z.to_nat n)%nat → range n !! i = Some (Z.of_nat i).
Proof.
  intros Hi. unfold range. rewrite list_lookup_fmap, lookup_seq_lt by done. done.
Qed.

Lemma length_range n : length (range n) = Z.to_nat n.
Proof. unfold range. by rewrite length_fmap, length_seq. Qed.

Lemma generic_bank_lookup task j :
  (j < 15)%nat → ∃ c p, generic_bank task !! j = Some (String c p +:+ task).
Proof.
  intros Hj.
  do 15 (destruct j as [|j]; [by eexists _, _|]). lia.
Qed.

Lemma length_generic_bank task : len (generic_bank task) = 15.
Proof. done. Qed.

(** The [i]-th filler is entry [i mod 15] of the bank. *)
Lemma generic_subtasks_lookup task count i :
  (i < Z.to_nat count)%nat →
  _get_generic_subtasks task count !! i = generic_bank task !! (i `mod` 15)%nat.
Proof.
  intros Hi. unfold _get_generic_subtasks.
  rewrite list_lookup_fmap, range_lookup by done.
  cbn [fmap option_fmap option_map]. rewrite length_generic_bank.
  replace (Z.to_nat (Z.of_nat i `mod` 15)) with (i `mod` 15)%nat
    by (rewrite <- (Nat2Z.id (i `mod` 15)), Nat2Z.inj_mod; done).
  destruct (generic_bank_lookup task (i `mod` 15)%nat) as (c & p & ->); [|done].
  apply Nat.mod_upper_bound. lia.
Qed.

Lemma length_generic_subtasks task count :
  length (_get_generic_subtasks task count) = Z.to_nat count.
Proof. unfold _get_generic_subtasks. by rewrite length_fmap, length_range. Qed.

Lemma generic_subtasks_nonempty task count :
  Forall (λ s, s ≠ "") (_get_generic_subtasks task count).
Proof.
  apply Forall_lookup. intros i s Hs.
  assert (i < Z.to_nat count)%nat as Hi.
  { apply lookup_lt_Some in Hs. by rewrite length_generic_subtasks in Hs. }
  rewrite generic_subtasks_lookup in Hs by done.
  destruct (generic_bank_lookup task (i `mod` 15)%nat) as (c & p & Hb).
  { apply Nat.mod_upper_bound. lia. }
  rewrite Hb in Hs. injection Hs as <-. by rewrite append_cons.
Qed.

Lemma generic_subtasks_take task count :
  0 ≤ count ≤ 15 →
  _get_generic_subtasks task count = take (Z.to_nat count) (generic_bank task).
Proof.
  intros Hc. apply list_eq. intros i.
  destruct (decide (i < Z.to_nat count)%nat) as [Hi|Hi].
  - rewrite generic_subtasks_lookup, lookup_take_lt by done.
    by rewrite Nat.mod_small by lia.
  - rewrite !lookup_ge_None_2; [done| |].
    + rewrite length_take. lia.
    + rewrite length_generic_subtasks. lia.
Qed.

Lemma banks_distinct task : NoDup (template_bank task ++ generic_bank task).
Proof.
  change (template_bank task ++ generic_bank task)
    with ((λ p, p +:+ task) <$> (template_prefixes ++ generic_prefixes)).
  apply NoDup_fmap_2.
  - intros p q. apply append_inj_l.
  - apply (bool_decide_unpack _). by vm_compute.
Qed.

Lemma slice_to_sublist {A} (l : list A) k : slice_to l k `sublist_of` l.
Proof. unfold slice_to. destruct (0 <=? k); apply sublist_take. Qed.

End DecompositionFacts.

Section DecomposeTaskFacts.
Import Decomposition.

Lemma llm_decompose_total cfg task context p :
  total (_llm_decompose cfg task context p).
Proof.
  apply total_try_catch. intros e.
  apply total_bind; [apply total_emit|]. intros _. apply total_ret.
Qed.

Lemma llm_decompose_fallback cfg task context p e log :
  p (user_prompt task context) = Raise e →
  ∃ log', _llm_decompose cfg task context p log
          = (Ok (_template_decompose cfg task), log').
Proof.
  intros Hp. unfold _llm_decompose, try_catch.
  unfold mbind, M_bind, Py.bind, emit. rewrite Hp. simpl. by eexists.
Qed.

Lemma decompose_task_shape cfg task context llm_provider :
  ∃ pre d log,
    run (decompose_task cfg task context llm_provider) = (Ok d, log)
    ∧ original_task d = task
    ∧ subtasks d = finish cfg task pre
    ∧ (provider_unavailable task context llm_provider →
       pre = _template_decompose cfg task)
    ∧ (llm_provider = None → log = []).
Proof.
  unfold run, decompose_task. destruct llm_provider as [p|].
  - destruct (llm_decompose_total cfg task context p []) as (pre & log & Hpre).
    exists pre. rewrite (bind_eq _ _ _ _ _ Hpre). eexists _, _.
    split; [reflexivity|]. split; [done|]. split; [done|]. split; [|done].
    intros [[=]|(p' & e & [= <-] & He)].
    destruct (llm_decompose_fallback cfg task context p e [] He) as [log' H'].
    rewrite H' in Hpre. by injection Hpre as <- _.
  - exists (_template_decompose cfg task). eexists _, _.
    split; [reflexivity|]. by repeat split.
Qed.

Lemma pad_spec cfg validated task T :
  target_agent_count cfg = Some T → 0 < T →
  (T ≤ len validated
   ∧ _pad_to_target_count cfg validated task = take (Z.to_nat T) validated)
  ∨ (len validated < T
     ∧ _pad_to_target_count cfg validated task
       = validated ++ _get_generic_subtasks task (T - len validated)).
Proof.
  intros HT Hpos. unfold _pad_to_target_count. rewrite HT.
  destruct (Z.eqb_spec T 0); [lia|]. simpl.
  destruct (Z.leb_spec T (len validated)); [left|right]; split; try done.
  unfold slice_to. destruct (Z.leb_spec 0 T); [done|lia].
Qed.
End DecomposeTaskFacts.

Section Tier1Length.
Import Hierarchical.

Lemma gather_all_ok {E A} (cs : list (M E A)) log rs log' :
  gather cs log = (Ok rs, log') → Forall total cs →
  Forall (λ r, is_Some (ok_of r)) rs.
Proof.
  intros Hg Hcs. revert log rs log' Hg.
  induction Hcs as [|c cs Hc _ IH]; intros log rs log'; simpl.
  - intros [= <- _]. constructor.
  - unfold Py.bind, capture. destruct (Hc log) as (a & log1 & ->).
    destruct (gather cs log1) as [[rs1|e] log2] eqn:Hg; simpl; [|done].
    intros [= <- _]. constructor; [by eexists|]. by eapply IH.
Qed.

Lemma omap_all_ok {A} (rs : list (Res A)) :
  Forall (λ r, is_Some (ok_of r)) rs → length (omap ok_of rs) = length rs.
Proof.
  induction 1 as [|r rs [a Ha] _ IH]; [done|]. simpl. rewrite Ha. simpl. by f_equal.
Qed.

(** Belters that time out or return, but never let an exception out, all
    get a response. *)
Lemma tier1_one_response_per_belter cfg bs task :
  0 < max_concurrent_agents cfg →
  Forall (λ b, ∀ t, b_execute_task b t = Overrun
                    ∨ ∃ c, b_execute_task b t = InTime c ∧ total c) bs →
  ∃ rs log, run (_execute_belters_parallel cfg bs task) = (Ok rs, log)
            ∧ length rs = length bs.
Proof.
  intros Hc Hbs. unfold run, _execute_belters_parallel, Semaphore.
  destruct (Z.ltb_spec (max_concurrent_agents cfg) 0); [lia|].
  rewrite (bind_eq _ _ [] tt []) by done.
  destruct (total_gather (imap (λ idx agent, execute_with_limit cfg task agent idx) bs) [])
    as (results & log1 & Hg).
  rewrite (bind_eq _ _ _ _ _ Hg).
  destruct (keep_responses_spec results [] log1) as [log2 ->].
  eexists _, _. split; [done|]. simpl.
  rewrite omap_all_ok.
  - apply gather_length in Hg. by rewrite Hg, length_imap.
  - eapply gather_all_ok; [exact Hg|].
    apply Forall_forall. intros c Hin.
    apply elem_of_lookup_imap in Hin as (i & b & -> & Hb).
    rewrite Forall_forall in Hbs.
    assert (b ∈ bs) as Hin by (by eapply list_elem_of_lookup_2).
    intros log. unfold execute_with_limit, try_catch.
    match goal with |- context [b_execute_task b ?t] =>
      destruct (Hbs b Hin t) as [->|(c & -> & Hc')] end.
    + by eexists _, _.
    + destruct (Hc' log) as (a & l & ->). by eexists _, _.
Qed.
End Tier1Length.

Section RetryExample.
Import ParallelExec.

(** Once an exception of the progress callback has put an item in the
    retry queue, [_execute_retries] does what its name says: the failing
    unit of work is called again [max_retries] times, with the delay
    before each round, and the last result is recorded with
    [retry_count = max_retries]. *)
Example retries_follow_a_callback_failure :
  run (execute_parallel default_config [always_failing] None
         (Some callback_failing_on_task_0))
  = (Ok [ {| task_id := "task_0_retry_2"; status := FAILED; result := None;
             error := Some (ErrorStr "boom"); retry_count := 2 |} ],
     [ Notified "task_0" RUNNING;
       Slept 1;
       Notified "task_0_retry_1" RETRYING; Notified "task_0_retry_1" RUNNING;
       Invoked "task_0_retry_1"; Notified "task_0_retry_1" FAILED;
       Slept 1;
       Notified "task_0_retry_2" RETRYING; Notified "task_0_retry_2" RUNNING;
       Invoked "task_0_retry_2"; Notified "task_0_retry_2" FAILED ]).
Proof. by vm_compute. Qed.
End RetryExample.

Section PaddingExample.
Import Decomposition.

(** With a provider, fillers repeat even within the default bounds: the
    answer of one item is brought to [min_subtasks] with the first two
    fillers, and padding to five appends the same two again. *)
Example padding_after_a_provider_repeats_fillers :
  fst (run (decompose_task five_subtasks "X" None (Some one_item_provider)))
  = Ok {| original_task := "X";
          subtasks := [ "Collect the published clinical evidence";
                        "Conduct supplementary research on: X";
                        "Perform detailed analysis of: X";
                        "Conduct supplementary research on: X";
                        "Perform detailed analysis of: X" ];
          decomposition_metadata :=
            {| method := "llm"; original_count := 5; padded := true |} |}.
Proof. by vm_compute. Qed.
End PaddingExample.

Section AgentFacts.
Import Hierarchical.

Lemma BelterAgent_yields id specialization t :
  yields (BelterAgent_execute_task id specialization t)
    (_create_response id ("Belter " +:+ id +:+ " completed task: " +:+ prompt t)
       COMPLETED []
       (Some (<["specialization" := MStr specialization]>
                (<["tier" := MStr "belter"]> ∅))) None)
    [Worked id].
Proof. by intros log. Qed.

Lemma failed_response_within (P : Event → Prop) id e :
  returns_within P (failed_response id e).
Proof. apply within_ret. Qed.

(** The common shape of the three agents of [cascade.py] once their
    prompts are built. *)
Lemma llm_yields p model id query user_prompt system_prompt metadata :
  yields
    (try_catch
       (model_to_use ← lift (model_or_select p model query);
        emit (Chatted id user_prompt);;
        response_content ← lift (chat p user_prompt system_prompt model_to_use);
        mret (_create_response id response_content COMPLETED []
                (metadata model_to_use) None))
       (failed_response id))
    (fst (llm_answer p model id query user_prompt system_prompt metadata))
    (snd (llm_answer p model id query user_prompt system_prompt metadata)).
Proof.
  intros log. unfold llm_answer, try_catch.
  destruct (model_or_select p model query) as [m|e]; simpl.
  - unfold mbind, M_bind, Py.bind, emit. simpl.
    destruct (chat p user_prompt system_prompt m); done.
  - by rewrite app_nil_r.
Qed.

Lemma RealLLMBelterAgent_yields repr model p id specialization t :
  let answer :=
    llm_answer p model id (prompt t) (belter_user_prompt repr t)
      (belter_system_prompt specialization)
      (λ m, Some (<["specialization" := MStr specialization]>
                    (<["model" := MStr m]> ∅))) in
  yields (RealLLMBelterAgent_execute_task repr model p id specialization t)
    (fst answer) (snd answer).
Proof. apply llm_yields. Qed.

Lemma DrummerAgent_keeps id : keeps_to_itself id (DrummerAgent_execute_task id).
Proof.
  intros t log. unfold DrummerAgent_execute_task, try_catch.
  destruct (decide (context_get t belter_responses [] = [])).
  - eexists _, []. by rewrite app_nil_r.
  - eexists _, [Worked id]. split; [done|]. by constructor.
Qed.

Lemma CaminaAgent_yields id bs ds q :
  ds ≠ [] →
  yields (final_synthesis (CaminaAgent_execute_task id) bs ds q)
    (executive_response id ds (len bs)) [Worked id].
Proof.
  intros Hds log. unfold final_synthesis, CaminaAgent_execute_task, try_catch.
  rewrite (context_get_some _ _ _ _ _ ds) by done.
  rewrite (context_get_some _ _ _ _ _ (len bs)) by done.
  destruct (decide (ds = [])) as [?|_]; [done|]. done.
Qed.

Lemma belter_finding_silent (P : Event → Prop) r : emits_only P (belter_finding r).
Proof. unfold belter_finding. destruct (metadata r); [apply emits_ret|apply emits_raise]. Qed.

Lemma RealLLMDrummerAgent_keeps model p id :
  keeps_to_itself id (RealLLMDrummerAgent_execute_task model p id).
Proof.
  intros t. unfold RealLLMDrummerAgent_execute_task.
  apply within_try_catch; [|intros e; apply failed_response_within].
  apply emits_bind.
  { destruct (context t); [apply emits_ret|apply emits_raise]. }
  intros rs. apply emits_bind.
  { apply emits_gather_raising, Forall_fmap, Forall_forall.
    intros r _. apply belter_finding_silent. }
  intros parts. apply emits_bind; [apply emits_lift|]. intros m.
  apply emits_bind; [by apply emits_emit|]. intros _.
  apply emits_bind; [apply emits_lift|]. intros answer. apply emits_ret.
Qed.

Lemma RealLLMCaminaAgent_yields model p self_id bs ds task :
  yields
    (final_synthesis (RealLLMCaminaAgent_execute_task model p self_id) bs ds (Some task))
    (fst (cascade_executive_answer p model self_id task ds))
    (snd (cascade_executive_answer p model self_id task ds)).
Proof.
  intros log. unfold final_synthesis, RealLLMCaminaAgent_execute_task.
  cbn [context prompt drummer_responses default from_option id].
  unfold cascade_executive_answer.
  rewrite <- (llm_yields p model self_id _ _ camina_system_prompt (λ _, None) log).
  unfold try_catch. by rewrite (bind_eq _ _ log ds log).
Qed.
End AgentFacts.

Section SwarmFacts.
Import Hierarchical.

Lemma work_of_app id l1 l2 : work_of id (l1 ++ l2) = work_of id l1 ++ work_of id l2.
Proof. apply filter_app. Qed.

Lemma work_of_others id evs :
  Forall (λ e, event_agent e ≠ Some id) evs → work_of id evs = [].
Proof.
  induction 1 as [|e evs He _ IH]; [done|].
  unfold work_of. by rewrite filter_cons_False.
Qed.

Lemma work_of_own id evs :
  Forall (λ e, event_agent e = Some id) evs → work_of id evs = evs.
Proof. apply filter_Forall_id. Qed.

Lemma stream_within cb kind msg :
  quiet cb → returns_within (λ e, event_agent e = None) (stream cb kind msg).
Proof.
  intros Hq log. unfold stream. destruct cb as [f|].
  - exists tt, [Streamed kind msg]. unfold mbind, M_bind, Py.bind, emit.
    rewrite (Hq f eq_refl). split; [done|]. by constructor.
  - exists tt, []. by rewrite app_nil_r.
Qed.

Lemma keep_responses_ok rs acc log :
  keep_responses (Ok <$> rs) acc log = (Ok (acc ++ rs), log).
Proof.
  revert acc. induction rs as [|r rs IH]; intros acc; simpl.
  - by rewrite app_nil_r.
  - by rewrite IH, <- app_assoc.
Qed.

(** Belters that each answer, under the deadline of Tier 1, give Tier 1
    one response each, in their order. *)
Lemma tier1_yields cfg bs task (answer : nat → AgentResponse * list Event) :
  0 ≤ max_concurrent_agents cfg →
  (∀ i b, bs !! i = Some b →
          yields (execute_with_limit cfg task b i) (fst (answer i)) (snd (answer i))) →
  yields (_execute_belters_parallel cfg bs task)
    (fst ∘ answer <$> seq 0 (length bs))
    (concat (snd ∘ answer <$> seq 0 (length bs))).
Proof.
  intros Hc Hbs log. unfold _execute_belters_parallel, Semaphore.
  destruct (Z.ltb_spec (max_concurrent_agents cfg) 0); [lia|].
  rewrite (bind_eq _ _ log tt log) by done.
  erewrite bind_eq; last first.
  { apply (gather_imap_yields (λ idx agent, execute_with_limit cfg task agent idx)
             (fst ∘ answer) (snd ∘ answer)). exact Hbs. }
  by rewrite keep_responses_ok.
Qed.

Lemma execute_with_limit_in_time cfg task b i c r evs :
  b_execute_task b (belter_task cfg task i) = InTime c → yields c r evs →
  yields (execute_with_limit cfg task b i) r evs.
Proof.
  intros Hb Hc log. unfold execute_with_limit, try_catch.
  change {| prompt := _; context := None; timeout_seconds := _ |}
    with (belter_task cfg task i).
  by rewrite Hb, Hc.
Qed.

Lemma execute_with_limit_overran cfg task b i :
  b_execute_task b (belter_task cfg task i) = Overrun →
  yields (execute_with_limit cfg task b i)
    (failure (b_id b) ("Timeout after " +:+ str_of_Z (belter_timeout cfg) +:+ "s")) [].
Proof.
  intros Hb log. unfold execute_with_limit, try_catch.
  change {| prompt := _; context := None; timeout_seconds := _ |}
    with (belter_task cfg task i).
  rewrite Hb. simpl. by rewrite app_nil_r.
Qed.
End SwarmFacts.

Section BaseSwarm.
Import Hierarchical.

Lemma fmap_range_lookup {A} (f : Z → A) n i x :
  (f <$> range n) !! i = Some x → x = f (Z.of_nat i) ∧ (i < Z.to_nat n)%nat.
Proof.
  intros Hi. assert (i < Z.to_nat n)%nat as Hlt.
  { apply lookup_lt_Some in Hi. by rewrite length_fmap, length_range in Hi. }
  rewrite list_lookup_fmap, range_lookup in Hi by done. by injection Hi as <-.
Qed.

(** The Belters of [HierarchicalOrchestrator] under Tier 1. *)
Lemma base_belter_answers cfg late n task i b sw log :
  _create_agent_swarm cfg late n log = (Ok sw, log) →
  belters sw !! i = Some b →
  yields (execute_with_limit cfg task b i)
    (fst (belter_answer cfg late task i)) (snd (belter_answer cfg late task i)).
Proof.
  intros [= <-]. simpl. intros Hb. apply fmap_range_lookup in Hb as [-> _].
  unfold belter_answer. destruct (late (Z.of_nat i)) eqn:Hlate.
  - by apply execute_with_limit_overran.
  - eapply execute_with_limit_in_time; [reflexivity|]. apply BelterAgent_yields.
Qed.

Lemma belter_answer_apart cfg late task i :
  Forall (λ e, event_agent e ≠ Some "camina_1") (snd (belter_answer cfg late task i)).
Proof.
  unfold belter_answer. destruct (late (Z.of_nat i)); simpl; [done|].
  constructor; [|done]. simpl. by intros [=].
Qed.

Lemma base_drummers_keep cfg late n sw log :
  _create_agent_swarm cfg late n log = (Ok sw, log) →
  Forall (λ d, ∃ id, id ≠ "camina_1" ∧ keeps_to_itself id (d_execute_task d))
    (drummers sw).
Proof.
  intros [= <-]. simpl. destruct (enable_drummer cfg); [|done].
  apply Forall_fmap, Forall_forall. intros i _.
  exists ("drummer_" +:+ str_of_Z (i + 1)). split; [done|]. apply DrummerAgent_keeps.
Qed.

Lemma base_camina_answers cfg late n sw log :
  _create_agent_swarm cfg late n log = (Ok sw, log) →
  enable_camina cfg = true → (2 ≤ length (drummers sw))%nat →
  ∃ c, camina sw = Some c
    ∧ ∀ bs ds q, ds ≠ [] →
        yields (final_synthesis (c_execute_task c) bs ds q)
          (executive_response "camina_1" ds (len bs)) [Worked "camina_1"].
Proof.
  intros [= <-]. simpl. intros -> Hlen.
  destruct (enable_drummer cfg); [|simpl in Hlen; lia].
  rewrite length_fmap, length_range in Hlen.
  destruct (Z.leb_spec 2 ((n + 4) `div` 5)); [|lia]. simpl.
  eexists. split; [done|]. intros bs ds q. apply CaminaAgent_yields.
Qed.
End BaseSwarm.

Section CascadeSwarm.
Import Hierarchical.
Variables (repr : Context → string) (p : Provider) (model : option string).
Variables (cfg : OrchestratorConfig) (late : Z → bool) (n : Z).

Lemma app_no_events {X} (zs : list X) (l : list Event) :
  l ++ concat ((λ _, []) <$> zs) = l.
Proof. induction zs; simpl; [apply app_nil_r|done]. Qed.

(** With its provider found, [DreamCascadeOrchestrator] builds its
    agents without an event. *)
Lemma cascade_swarm_created log :
  DreamCascade_create_agent_swarm repr (Ok p) model cfg late n log
  = (Ok (cascade_agents repr p model cfg late n), log).
Proof.
  unfold DreamCascade_create_agent_swarm, cascade_agents.
  erewrite bind_eq; last first.
  { eapply (gather_raising_fmap _ _ (λ _, [])).
    intros i _ l. unfold RealLLMBelterAgent. simpl. rewrite app_nil_r. reflexivity. }
  rewrite app_no_events.
  destruct (enable_drummer cfg).
  - erewrite bind_eq; last first.
    { eapply (gather_raising_fmap _ _ (λ _, [])).
      intros i _ l. unfold RealLLMDrummerAgent. simpl. rewrite app_nil_r. reflexivity. }
    rewrite app_no_events.
    destruct (enable_camina cfg && _); reflexivity.
  - rewrite (bind_eq _ _ log [] log) by done.
    destruct (enable_camina cfg && _); reflexivity.
Qed.

Lemma cascade_belter_answers task i b :
  belters (cascade_agents repr p model cfg late n) !! i = Some b →
  yields (execute_with_limit cfg task b i)
    (fst (cascade_belter_answer repr p model cfg late task i))
    (snd (cascade_belter_answer repr p model cfg late task i)).
Proof.
  simpl. intros Hb. apply fmap_range_lookup in Hb as [-> _].
  unfold cascade_belter_answer. destruct (late (Z.of_nat i)) eqn:Hlate.
  - by apply execute_with_limit_overran.
  - eapply execute_with_limit_in_time; [reflexivity|].
    apply RealLLMBelterAgent_yields.
Qed.

Lemma llm_answer_own q id qu up sp md :
  Forall (λ e, event_agent e = Some id) (snd (llm_answer q model id qu up sp md)).
Proof.
  unfold llm_answer. destruct (model_or_select q model qu); simpl; [|done].
  by constructor.
Qed.

Lemma cascade_belter_answer_apart task i :
  Forall (λ e, event_agent e ≠ Some "camina_1")
    (snd (cascade_belter_answer repr p model cfg late task i)).
Proof.
  unfold cascade_belter_answer. destruct (late (Z.of_nat i)); [done|].
  eapply Forall_impl; [apply llm_answer_own|].
  intros e He. rewrite He. by intros [=].
Qed.

Lemma cascade_drummers_keep :
  Forall (λ d, ∃ id, id ≠ "camina_1" ∧ keeps_to_itself id (d_execute_task d))
    (drummers (cascade_agents repr p model cfg late n)).
Proof.
  simpl. destruct (enable_drummer cfg); [|done].
  apply Forall_fmap, Forall_forall. intros i _.
  exists ("drummer_" +:+ str_of_Z (i + 1)). split; [done|].
  apply RealLLMDrummerAgent_keeps.
Qed.

Lemma cascade_camina_answers :
  enable_camina cfg = true →
  (2 ≤ length (drummers (cascade_agents repr p model cfg late n)))%nat →
  ∃ c, camina (cascade_agents repr p model cfg late n) = Some c
    ∧ ∀ bs ds task,
        yields (final_synthesis (c_execute_task c) bs ds (Some task))
          (fst (cascade_executive_answer p model "camina_1" task ds))
          (snd (cascade_executive_answer p model "camina_1" task ds)).
Proof.
  intros Hec Hlen. unfold cascade_agents at 1. cbn [camina]. rewrite Hec.
  change (if enable_drummer cfg then _ else _)
    with (drummers (cascade_agents repr p model cfg late n)).
  destruct (Z.leb_spec 2 (len (drummers (cascade_agents repr p model cfg late n))))
    as [_|Hlt]; [|unfold len in Hlt; lia].
  eexists. split; [done|]. intros bs ds task. apply RealLLMCaminaAgent_yields.
Qed.
End CascadeSwarm.

Section Orchestration.
Import Hierarchical.

(** An orchestrator whose [_create_agent_swarm] returns the agents [sw]:
    Belters that answer under the deadline of Tier 1 as [tier1] says,
    Drummers that keep to themselves, and, once two Drummers exist, a
    Camina that answers as [tier3] says. *)
Variables (cfg : OrchestratorConfig) (create : Z → M Event Swarm) (sw : Swarm).
Variable tier1 : string → nat → AgentResponse * list Event.
Variable tier3 : string → list AgentResponse → list AgentResponse
                 → AgentResponse * list Event.
Hypothesis created : ∀ log, create (num_agents cfg) log = (Ok sw, log).
Hypothesis belters_answer :
  ∀ task i b, belters sw !! i = Some b →
    yields (execute_with_limit cfg task b i) (fst (tier1 task i)) (snd (tier1 task i)).
Hypothesis belters_apart :
  ∀ task i, Forall (λ e, event_agent e ≠ Some "camina_1") (snd (tier1 task i)).
Hypothesis drummers_keep :
  Forall (λ d, ∃ id, id ≠ "camina_1" ∧ keeps_to_itself id (d_execute_task d))
    (drummers sw).
Hypothesis camina_answers :
  enable_camina cfg = true → (2 ≤ length (drummers sw))%nat →
  ∃ c, camina sw = Some c
    ∧ ∀ task bs ds, ds ≠ [] →
        yields (final_synthesis (c_execute_task c) bs ds (Some task))
          (fst (tier3 task bs ds)) (snd (tier3 task bs ds)).

Lemma drummers_within bs task :
  returns_within (λ e, event_agent e ≠ Some "camina_1")
    (_execute_drummers_parallel (drummers sw) bs task).
Proof.
  unfold _execute_drummers_parallel. apply within_gather_raising.
  apply Forall_fmap, Forall_forall. intros [d g] Hin. simpl.
  apply list_elem_of_filter in Hin as [_ Hin]. apply elem_of_zip_l in Hin.
  rewrite Forall_forall in drummers_keep.
  destruct (drummers_keep d Hin) as (id & Hid & Hkeep).
  eapply within_impl; [|apply Hkeep].
  intros e He. rewrite He. intros [= ?]. by apply Hid.
Qed.

Lemma streamed_apart cb kind msg :
  quiet cb →
  returns_within (λ e, event_agent e ≠ Some "camina_1") (stream cb kind msg).
Proof.
  intros Hq. eapply within_impl; [|by apply stream_within].
  intros e He. by rewrite He.
Qed.

Lemma tier1_apart task k :
  Forall (λ e, event_agent e ≠ Some "camina_1")
    (concat (snd ∘ tier1 task <$> seq 0 k)).
Proof.
  apply Forall_concat, Forall_fmap, Forall_forall. intros i _. apply belters_apart.
Qed.

(** A run of [execute_task]: it returns; Tier 1 holds one response for
    each Belter, in their order; the Camina answers when Tier 3 is
    enabled and Tier 2 gave two results or more, and does nothing
    otherwise. *)
Lemma execute_task_answers task cb :
  quiet cb → 0 ≤ max_concurrent_agents cfg →
  ∃ out before,
    work_of "camina_1" before = []
    ∧ belter_responses_out out = fst ∘ tier1 task <$> seq 0 (length (belters sw))
    ∧ if enable_camina cfg && (2 <=? len (drummer_responses_out out)) then
        run (execute_task cfg create task cb)
        = (Ok out,
           before ++ snd (tier3 task (belter_responses_out out)
                            (drummer_responses_out out)))
        ∧ camina_response out
          = Some (fst (tier3 task (belter_responses_out out)
                         (drummer_responses_out out)))
      else
        run (execute_task cfg create task cb) = (Ok out, before)
        ∧ camina_response out = None.
Proof.
  intros Hq Hc. unfold run, execute_task, try_catch.
  rewrite (bind_eq _ _ _ _ _ (created [])).
  destruct (streamed_apart cb "status"
              ("Deploying " +:+ str_of_Z (num_agents cfg) +:+ " Belter agents...")
              Hq []) as ([] & e1 & Hs1 & HP1).
  rewrite (bind_eq _ _ _ _ _ Hs1).
  rewrite (bind_eq _ _ _ _ _
             (tier1_yields cfg (belters sw) task (tier1 task) Hc
                (belters_answer task) _)).
  set (bs := fst ∘ tier1 task <$> seq 0 (length (belters sw))).
  pose proof (tier1_apart task (length (belters sw))) as HP2.
  set (e2 := concat (snd ∘ tier1 task <$> seq 0 (length (belters sw)))) in *.
  assert (∃ ds e3,
    (if enable_drummer cfg && (5 <=? len bs)
     then stream cb "status" "Initializing Drummer synthesis...";;
          _execute_drummers_parallel (drummers sw) bs task
     else mret []) (([] ++ e1) ++ e2) = (Ok ds, (([] ++ e1) ++ e2) ++ e3)
    ∧ Forall (λ e, event_agent e ≠ Some "camina_1") e3
    ∧ (length ds ≤ length (drummers sw))%nat)
    as (ds & e3 & Hd & HP3 & Hlen).
  { destruct (enable_drummer cfg && (5 <=? len bs)).
    - destruct (streamed_apart cb "status" "Initializing Drummer synthesis..." Hq
                  (([] ++ e1) ++ e2)) as ([] & s & Hs & HPs).
      destruct (drummers_within bs task ((([] ++ e1) ++ e2) ++ s))
        as (ds & d & Hd & HPd).
      exists ds, (s ++ d). rewrite (bind_eq _ _ _ _ _ Hs), Hd, app_assoc.
      split; [done|]. split; [by apply Forall_app|]. by eapply drummers_length.
    - exists [], []. rewrite app_nil_r. split; [done|]. split; [done|simpl; lia]. }
  rewrite (bind_eq _ _ _ _ _ Hd).
  assert (∀ s, Forall (λ e, event_agent e ≠ Some "camina_1") s →
               work_of "camina_1" (((([] ++ e1) ++ e2) ++ e3) ++ s) = []) as Hbefore.
  { intros s HPs. apply work_of_others. by repeat apply Forall_app_2. }
  destruct (enable_camina cfg) eqn:Hec; simpl.
  - destruct (Z.leb_spec 2 (len ds)) as [H2|H2].
    + destruct camina_answers as (c & Hcam & Hyields); [done|unfold len in H2; lia|].
      destruct (streamed_apart cb "status" "Launching Camina executive synthesis..."
                  Hq (((([] ++ e1) ++ e2) ++ e3))) as ([] & e4 & Hs4 & HP4).
      rewrite Hcam.
      assert (ds ≠ []) as Hne by (intros ->; unfold len in H2; simpl in H2; lia).
      erewrite bind_eq; last first.
      { erewrite bind_eq by exact Hs4. erewrite bind_eq by apply (Hyields task bs ds Hne).
        reflexivity. }
      eexists {| out_task := task; belter_responses_out := bs;
                 drummer_responses_out := ds; camina_response := _;
                 total_agents := _ |}, _.
      split; [by apply (Hbefore e4)|]. simpl. split; [done|].
      destruct (Z.leb_spec 2 (len ds)); [|lia]. done.
    + eexists {| out_task := task; belter_responses_out := bs;
                 drummer_responses_out := ds; camina_response := _;
                 total_agents := _ |}, _.
      split; [by apply (Hbefore [])|]. simpl. split; [done|].
      destruct (Z.leb_spec 2 (len ds)); [lia|]. by rewrite app_nil_r.
  - eexists {| out_task := task; belter_responses_out := bs;
               drummer_responses_out := ds; camina_response := _;
               total_agents := _ |}, _.
    split; [by apply (Hbefore [])|]. simpl. split; [done|].
    by rewrite app_nil_r.
Qed.
End Orchestration.

Section BatchLength.
Import ParallelExec.
Context {T : Type}.
Variables (cfg : ParallelExecutionConfig) (cb : option (Callback T)).

Lemma fails_ret {A} (a : A) (Q : A → Prop) : Q a → fails_only_by cb (mret a) Q.
Proof. by intros Ha log. Qed.

Lemma fails_bind {A B} (c : M Event A) (k : A → M Event B) Q R :
  fails_only_by cb c Q → (∀ a, Q a → fails_only_by cb (k a) R) →
  fails_only_by cb (c ≫= k) R.
Proof.
  intros Hc Hk log. unfold mbind, M_bind, Py.bind.
  specialize (Hc log). destruct (c log) as [[a|e] l]; [|done].
  apply (Hk a Hc).
Qed.

Lemma fails_weaken {A} (c : M Event A) (Q R : A → Prop) :
  (∀ a, Q a → R a) → fails_only_by cb c Q → fails_only_by cb c R.
Proof.
  intros HQR Hc log. specialize (Hc log). destruct (c log) as [[a|e] l]; auto.
Qed.

Lemma fails_emit ev : fails_only_by cb (emit ev) (λ _, True).
Proof. by intros log. Qed.

Lemma fails_notify id st data : fails_only_by cb (notify cb id st data) (λ _, True).
Proof.
  intros log. unfold notify. destruct cb as [f|] eqn:Hcb; [|done].
  unfold mbind, M_bind, Py.bind, emit.
  destruct (f id st data) as [msg|] eqn:Hf; [|done].
  by exists f, id, st, data, msg.
Qed.

Lemma fails_try_catch {A} (body : M Event A) h :
  (∀ e, fails_only_by cb (h e) (λ _, True)) →
  fails_only_by cb (try_catch body h) (λ _, True).
Proof.
  intros Hh log. unfold try_catch. destruct (body log) as [[a|e] l]; [done|].
  apply Hh.
Qed.

(** Whatever the unit of work does, [_execute_with_limit_and_timeout]
    turns it into a result; only the callback can make it raise. *)
Lemma fails_first_pass id (o : Outcome T) :
  fails_only_by cb (_execute_with_limit_and_timeout cfg id o cb) (λ _, True).
Proof.
  unfold _execute_with_limit_and_timeout.
  eapply fails_bind; [apply fails_notify|]. intros _ _.
  apply fails_try_catch. intros [|msg];
    (eapply fails_bind; [apply fails_notify|intros; by apply fails_ret]).
Qed.

Lemma fails_index {A} (xs : list A) i :
  (i < length xs)%nat → fails_only_by cb (index xs i) (λ _, True).
Proof.
  intros Hi log. unfold index.
  destruct (lookup_lt_is_Some_2 xs i Hi) as [x ->]. done.
Qed.

Lemma fails_assign {A} (xs : list A) i x :
  (i < length xs)%nat →
  fails_only_by cb (assign xs i x) (λ xs', length xs' = length xs).
Proof.
  intros Hi log. unfold assign. destruct (decide (i < length xs)%nat); [|done].
  simpl. apply length_insert.
Qed.

Lemma fails_gather {A} (cs : list (M Event A)) :
  fails_only_by cb (gather cs) (λ rs, length rs = length cs).
Proof.
  intros log. destruct (total_gather cs log) as (rs & l & Hg). rewrite Hg.
  by eapply gather_length.
Qed.

Lemma fails_process_results (tasks : list (Task T)) task_args rs i acc retry :
  (i + length rs ≤ length tasks)%nat → (i + length rs ≤ length task_args)%nat →
  length acc = i → in_range i retry →
  fails_only_by cb (process_results cfg tasks task_args i rs acc retry)
    (λ '(pr, rt), length pr = (i + length rs)%nat ∧ in_range (length pr) rt).
Proof.
  revert i acc retry. induction rs as [|[r|e] rs IH]; intros i acc retry Ht Ha Hacc Hr;
    simpl in *.
  - apply fails_ret. split; [lia|]. by rewrite Hacc.
  - eapply fails_weaken; [|apply (IH (S i))]; try lia.
    + intros [pr rt] [Hlen Hin]. split; [lia|done].
    + rewrite length_app. simpl. lia.
    + eapply Forall_impl; [exact Hr|]. simpl. lia.
  - destruct (enable_retries cfg).
    + eapply fails_bind; [apply fails_index; lia|]. intros t _.
      eapply fails_bind; [apply fails_index; lia|]. intros a _.
      eapply fails_weaken; [|apply (IH (S i))]; try lia.
      * intros [pr rt] [Hlen Hin]. split; [lia|done].
      * rewrite length_app. simpl. lia.
      * apply Forall_app. split.
        -- eapply Forall_impl; [exact Hr|]. simpl. lia.
        -- constructor; [simpl; lia|done].
    + eapply fails_weaken; [|apply (IH (S i))]; try lia.
      * intros [pr rt] [Hlen Hin]. split; [lia|done].
      * rewrite length_app. simpl. lia.
      * eapply Forall_impl; [exact Hr|]. simpl. lia.
Qed.

Lemma fails_retry_pass k rts next results :
  in_range (length results) rts → in_range (length results) next →
  fails_only_by cb (retry_pass cfg cb k rts next results)
    (λ '(next', results'),
       length results' = length results ∧ in_range (length results) next').
Proof.
  revert next results. induction rts as [|[[idx task] args] rts IH];
    intros next results Hrts Hnext; simpl.
  - by apply fails_ret.
  - apply Forall_cons in Hrts as [Hidx Hrts]. simpl in Hidx.
    eapply fails_bind; [apply fails_notify|]. intros _ _.
    eapply fails_bind; [apply fails_first_pass|]. intros r _.
    assert (fails_only_by cb
              (results' ← assign results idx (set_retry_count r (k + 1));
               retry_pass cfg cb k rts next results')
              (λ '(next', results'),
                 length results' = length results
                 ∧ in_range (length results) next')) as Hassign.
    { eapply fails_bind; [by apply fails_assign|]. intros rs1 Hlen.
      eapply fails_weaken; [|apply IH; by rewrite Hlen].
      intros [n1 r1] [H1 H2]. rewrite Hlen in H1, H2. done. }
    destruct (decide _); [exact Hassign|].
    destruct (k <? max_retries cfg - 1); [|exact Hassign].
    apply IH; [done|]. apply Forall_app. split; [done|]. by constructor.
Qed.

Lemma fails_retry_rounds rounds rts results :
  in_range (length results) rts →
  fails_only_by cb (retry_rounds cfg cb rounds rts results)
    (λ results', length results' = length results).
Proof.
  revert rts results. induction rounds as [|k rounds IH]; intros rts results Hrts;
    simpl.
  - by apply fails_ret.
  - destruct rts as [|rt rts]; [by apply fails_ret|].
    eapply fails_bind; [apply fails_emit|]. intros _ _.
    eapply fails_bind; [apply fails_retry_pass; [exact Hrts|by constructor]|].
    intros [next rs1] [Hlen Hin].
    eapply fails_weaken; [|apply IH; by rewrite Hlen].
    intros r1 H1. by rewrite H1.
Qed.

(** [execute_parallel] returns one result for each pair of a unit of work
    and its arguments, unless the progress callback raises during a
    retry. *)
Lemma fails_execute_parallel (tasks : list (Task T)) task_args :
  fails_only_by cb (execute_parallel cfg tasks task_args cb)
    (λ out, length out
            = length (zip tasks (default (replicate (length tasks) []) task_args))).
Proof.
  unfold execute_parallel.
  set (args := default (replicate (length tasks) []) task_args).
  eapply fails_bind; [apply fails_gather|]. intros results Hlen.
  rewrite length_imap in Hlen.
  eapply fails_bind.
  { apply (fails_process_results tasks args results 0 [] []); simpl.
    - rewrite Hlen, length_zip. apply Nat.le_min_l.
    - rewrite Hlen, length_zip. apply Nat.le_min_r.
    - done.
    - constructor. }
  intros [pr rt] [Hpr Hrt]. simpl in Hpr.
  destruct rt as [|r rt].
  - apply fails_ret. by rewrite Hpr.
  - eapply fails_weaken; [|by apply fails_retry_rounds].
    intros out Hout. by rewrite Hout, Hpr.
Qed.

(** With retries disabled the first pass decides every result and
    nothing is queued, whatever the callback does. *)
Lemma process_results_no_retries (tasks : list (Task T)) task_args i rs acc log :
  enable_retries cfg = false →
  ∃ pr, process_results cfg tasks task_args i rs acc [] log = (Ok (pr, []), log).
Proof.
  intros Hno. revert i acc. induction rs as [|[r|e] rs IH]; intros i acc; simpl.
  - by eexists.
  - apply IH.
  - rewrite Hno. apply IH.
Qed.

Lemma execute_parallel_no_retries (tasks : list (Task T)) task_args :
  enable_retries cfg = false →
  ∃ out log, run (execute_parallel cfg tasks task_args cb) = (Ok out, log).
Proof.
  intros Hno. unfold run, execute_parallel.
  match goal with |- context [gather ?cs] =>
    destruct (total_gather cs []) as (results & l1 & Hg) end.
  rewrite (bind_eq _ _ _ _ _ Hg).
  match goal with |- context [process_results cfg tasks ?a 0 results [] []] =>
    destruct (process_results_no_retries tasks a 0%nat results [] l1 Hno)
      as [pr Hp] end.
  rewrite (bind_eq _ _ _ _ _ Hp). by eexists _, _.
Qed.
End BatchLength.

(* ===================================================================== *)
(** * The claims *)
(* ===================================================================== *)

Section Claims_Batch.
Import Hierarchical.

(** C1.  A batch run returns one result for each submitted item, in the
    order of submission, and an item that fails, overruns its deadline
    or raises is recorded at its position.

    [ParallelExecutor.execute_parallel], given one argument tuple for
    each unit of work when [task_args] is given at all: with a progress
    callback that is absent or does not raise, the call returns, and
    the [i]-th result is that of the [i]-th unit of work, with status
    [COMPLETED], [TIMEOUT] or [FAILED] as it returned, overran or
    raised; with retries disabled the call returns whatever the callback
    does; whenever the call returns, it returns as many results as units
    of work; and when it raises, the exception is one that the progress
    callback raised, never one of a unit of work.

    Tier 1, for the agents of [HierarchicalOrchestrator] and for those
    of [DreamCascadeOrchestrator] once its provider is found:
    [_execute_belters_parallel] returns one response for each of the
    [num_agents] Belters, the [i]-th being that of the [i]-th Belter,
    with status [FAILED] when the Belter overran its deadline or, in the
    cascade, when its provider raised; and the Tier 1 results of a run
    of [execute_task] are as many as the Belters. *)
Theorem batch_keeps_one_result_per_item {T : Type}
    (cfg : ParallelExec.ParallelExecutionConfig)
    (tasks : list (ParallelExec.Task T))
    (task_args : option (list ParallelExec.Args))
    (cb : option (ParallelExec.Callback T))
    (hcfg : OrchestratorConfig) (late : Z → bool) (task : string)
    (stream_callback : option StreamCallback)
    (repr_context : Context → string) (provider : Provider)
    (model : option string) :
  0 < ParallelExec.max_concurrent cfg →
  (∀ args, task_args = Some args → length args = length tasks) →
  0 < max_concurrent_agents hcfg →
  (quiet_callback cb →
   ∃ out log,
     run (ParallelExec.execute_parallel cfg tasks task_args cb) = (Ok out, log)
     ∧ length out = length tasks
     ∧ ∀ i t, tasks !! i = Some t →
         ∃ args, args_at task_args i args
           ∧ out !! i = Some (first_pass_result cfg (task_name i) (t args 0)))
  ∧ (ParallelExec.enable_retries cfg = false →
     ∃ out log,
       run (ParallelExec.execute_parallel cfg tasks task_args cb) = (Ok out, log)
       ∧ length out = length tasks)
  ∧ (∀ out log,
       run (ParallelExec.execute_parallel cfg tasks task_args cb) = (Ok out, log) →
       length out = length tasks)
  ∧ (∀ e log,
       run (ParallelExec.execute_parallel cfg tasks task_args cb) = (Raise e, log) →
       callback_raised cb e)
  ∧ (∃ agents rs log,
       run (_create_agent_swarm hcfg late (num_agents hcfg)) = (Ok agents, [])
       ∧ run (_execute_belters_parallel hcfg (belters agents) task) = (Ok rs, log)
       ∧ length rs = length (belters agents)
       ∧ length rs = Z.to_nat (num_agents hcfg)
       ∧ ∀ i, (i < length rs)%nat →
           rs !! i = Some (fst (belter_answer hcfg late task i))
           ∧ agent_id (fst (belter_answer hcfg late task i)) = belter_name i
           ∧ status (fst (belter_answer hcfg late task i))
             = if late (Z.of_nat i) then FAILED else COMPLETED)
  ∧ (∃ agents rs log,
       run (DreamCascade_create_agent_swarm repr_context (Ok provider) model hcfg
              late (num_agents hcfg)) = (Ok agents, [])
       ∧ run (_execute_belters_parallel hcfg (belters agents) task) = (Ok rs, log)
       ∧ length rs = length (belters agents)
       ∧ length rs = Z.to_nat (num_agents hcfg)
       ∧ ∀ i, (i < length rs)%nat →
           let answer :=
             fst (cascade_belter_answer repr_context provider model hcfg late task i) in
           rs !! i = Some answer
           ∧ agent_id answer = belter_name i
           ∧ (status answer = COMPLETED ∨ status answer = FAILED)
           ∧ (late (Z.of_nat i) = true → status answer = FAILED))
  ∧ (quiet stream_callback →
     (∃ out log,
        run (execute_task hcfg (_create_agent_swarm hcfg late) task stream_callback)
        = (Ok out, log)
        ∧ length (belter_responses_out out) = Z.to_nat (num_agents hcfg))
     ∧ (∃ out log,
          run (execute_task hcfg
                 (DreamCascade_create_agent_swarm repr_context (Ok provider) model
                    hcfg late)
                 task stream_callback)
          = (Ok out, log)
          ∧ length (belter_responses_out out) = Z.to_nat (num_agents hcfg))).
Proof.
  intros _ Hargs Hc.
  assert (length (zip tasks (default (replicate (length tasks) []) task_args))
          = length tasks) as Hzip.
  { rewrite length_zip. destruct task_args as [args|]; simpl.
    - etrans; [exact (f_equal (Nat.min (length tasks)) (Hargs args eq_refl))|].
      apply Nat.min_id.
    - rewrite length_replicate. lia. }
  pose proof (fails_execute_parallel cfg cb tasks task_args []) as Hfails.
  split; [|split; [|split; [|split; [|split; [|split]]]]].
  - intros Hq.
    destruct (execute_parallel_quiet cfg tasks task_args cb Hq) as [log Hrun].
    eexists _, log. split; [exact Hrun|]. rewrite length_imap. split; [exact Hzip|].
    intros i t Hi.
    assert (∃ args, default (replicate (length tasks) []) task_args !! i = Some args)
      as [args Ha].
    { apply lookup_lt_is_Some_2. apply lookup_lt_Some in Hi.
      destruct task_args as [l|]; simpl.
      - exact (eq_ind_r (λ n, (i < n)%nat) Hi (Hargs l eq_refl)).
      - by rewrite length_replicate. }
    exists args. split.
    + destruct task_args as [l|]; simpl in *; [done|].
      by apply lookup_replicate in Ha as [-> _].
    + rewrite list_lookup_imap.
      erewrite (proj2 (lookup_zip_with_Some pair _ _ i (t, args))); [done|].
      by exists t, args.
  - intros Hno.
    destruct (execute_parallel_no_retries cfg cb tasks task_args Hno)
      as (out & log & Hrun).
    exists out, log. split; [exact Hrun|].
    unfold run in Hrun. rewrite Hrun in Hfails. by rewrite Hfails.
  - intros out log Hrun. unfold run in Hrun. rewrite Hrun in Hfails.
    by rewrite Hfails.
  - intros e log Hrun. unfold run in Hrun. by rewrite Hrun in Hfails.
  - eexists _, _, _. split; [reflexivity|]. split.
    { apply (tier1_yields hcfg _ task (belter_answer hcfg late task)); [lia|].
      intros i b. by apply (base_belter_answers hcfg late (num_agents hcfg) task i b _ []). }
    rewrite length_fmap, length_seq. split; [done|].
    split; [simpl; by rewrite length_fmap, length_range|].
    intros i Hi. split.
    { rewrite list_lookup_fmap, lookup_seq_lt by done. done. }
    unfold belter_answer. by destruct (late (Z.of_nat i)).
  - eexists _, _, _. split; [apply cascade_swarm_created|]. split.
    { apply (tier1_yields hcfg _ task
               (cascade_belter_answer repr_context provider model hcfg late task));
        [lia|].
      intros i b. apply cascade_belter_answers. }
    rewrite length_fmap, length_seq. split; [done|].
    split; [simpl; by rewrite length_fmap, length_range|].
    intros i Hi. split.
    { rewrite list_lookup_fmap, lookup_seq_lt by done. done. }
    unfold cascade_belter_answer, llm_answer.
    destruct (late (Z.of_nat i)); [simpl; by auto|].
    destruct (model_or_select _ _ _); [|simpl; split; [done|]; split; [by right|done]].
    destruct (chat _ _ _ _); simpl; (split; [done|]);
      (split; [by (left + right)|done]).
  - intros Hq. split.
    + destruct (execute_task_answers hcfg (_create_agent_swarm hcfg late) _
                  (belter_answer hcfg late)
                  (λ _ bs ds, (executive_response "camina_1" ds (len bs),
                               [Worked "camina_1"]))
                  (λ log, eq_refl)) with (task := task) (cb := stream_callback)
        as (out & before & _ & Hbs & Hrun).
      * intros t i b.
        by apply (base_belter_answers hcfg late (num_agents hcfg) t i b _ []).
      * intros t i. apply belter_answer_apart.
      * by apply (base_drummers_keep hcfg late (num_agents hcfg) _ []).
      * intros He Hlen.
        destruct (base_camina_answers hcfg late (num_agents hcfg) _ [] eq_refl He Hlen)
          as (c & Hcam & Hy).
        exists c. split; [done|]. intros t bs ds. apply Hy.
      * done.
      * lia.
      * exists out. revert Hrun.
        destruct (enable_camina hcfg && (2 <=? len (drummer_responses_out out)));
          intros [Hrun _];
          eexists; (split; [exact Hrun|]);
          rewrite Hbs, length_fmap, length_seq; simpl;
          by rewrite length_fmap, length_range.
    + destruct (execute_task_answers hcfg
                  (DreamCascade_create_agent_swarm repr_context (Ok provider) model
                     hcfg late)
                  (cascade_agents repr_context provider model hcfg late (num_agents hcfg))
                  (cascade_belter_answer repr_context provider model hcfg late)
                  (λ t _ ds, cascade_executive_answer provider model "camina_1" t ds))
        with (task := task) (cb := stream_callback)
        as (out & before & _ & Hbs & Hrun).
      * apply cascade_swarm_created.
      * intros t i b. apply cascade_belter_answers.
      * intros t i. apply cascade_belter_answer_apart.
      * apply cascade_drummers_keep.
      * intros He Hlen.
        destruct (cascade_camina_answers repr_context provider model hcfg late
                    (num_agents hcfg) He Hlen) as (c & Hcam & Hy).
        exists c. split; [done|]. intros t bs ds _. apply Hy.
      * done.
      * lia.
      * exists out. revert Hrun.
        destruct (enable_camina hcfg && (2 <=? len (drummer_responses_out out)));
          intros [Hrun _];
          eexists; (split; [exact Hrun|]);
          rewrite Hbs, length_fmap, length_seq; simpl;
          by rewrite length_fmap, length_range.
Qed.

Lemma batch_keeps_one_result_per_item_witness :
  (∃ out log,
      run (ParallelExec.execute_parallel ParallelExec.default_config
             [always_failing; always_late] None None) = (Ok out, log)
      ∧ length out = 2%nat
      ∧ ParallelExec.status <$> out = [ParallelExec.FAILED; ParallelExec.TIMEOUT])
  ∧ (∃ agents rs log,
       run (_create_agent_swarm default_config second_is_late 5) = (Ok agents, [])
       ∧ run (_execute_belters_parallel default_config (belters agents) "task")
         = (Ok rs, log)
       ∧ length rs = 5%nat
       ∧ status <$> rs = [COMPLETED; FAILED; COMPLETED; COMPLETED; COMPLETED])
  ∧ (∃ agents rs log,
       run (DreamCascade_create_agent_swarm (λ _, "{}") (Ok unreachable_provider)
              None default_config second_is_late 5) = (Ok agents, [])
       ∧ run (_execute_belters_parallel default_config (belters agents) "task")
         = (Ok rs, log)
       ∧ length rs = 5%nat
       ∧ error_message <$> rs
         = [ Some "connection refused"; Some "Timeout after 180s";
             Some "connection refused"; Some "connection refused";
             Some "connection refused" ]).
Proof.
  destruct (batch_keeps_one_result_per_item (T := string)
              ParallelExec.default_config [always_failing; always_late] None None
              default_config second_is_late "task" None (λ _, "{}")
              unreachable_provider None)
    as (Hbatch & _ & _ & _ & Hbase & Hcascade & _);
    [reflexivity|by intros ? [=]|reflexivity|].
  split; [|split].
  - destruct Hbatch as (out & log & Hrun & Hlen & _); [by intros ? [=]|].
    exists out, log. split; [exact Hrun|]. split; [exact Hlen|].
    vm_compute in Hrun. injection Hrun as <- _. reflexivity.
  - destruct Hbase as (agents & rs & log & Hsw & Hrun & _ & Hlen & _).
    exists agents, rs, log. split; [exact Hsw|]. split; [exact Hrun|].
    split; [exact Hlen|].
    injection Hsw as <-. vm_compute in Hrun. injection Hrun as <- _. reflexivity.
  - destruct Hcascade as (agents & rs & log & Hsw & Hrun & _ & Hlen & _).
    exists agents, rs, log. split; [exact Hsw|]. split; [exact Hrun|].
    split; [exact Hlen|].
    vm_compute in Hsw. injection Hsw as <-. vm_compute in Hrun.
    injection Hrun as <- _. reflexivity.
Defined.

End Claims_Batch.

Section Claims_Retry.
Import ParallelExec.

(** C3.  With no progress callback, a unit of work that raises on every
    call is called once and never retried, whatever [max_retries] is: its
    result is the first failure, with [retry_count = 0], and the log
    holds that single call and no delay. *)
Theorem failing_unit_of_work_is_not_retried {T : Type}
    (cfg : ParallelExecutionConfig) (task : Task T) (msg : string) :
  0 < max_concurrent cfg →
  (∀ args round, task args round = Throws msg) →
  run (execute_parallel cfg [task] None None)
  = (Ok [ {| task_id := "task_0"; status := FAILED; result := None;
             error := Some (ErrorStr msg); retry_count := 0 |} ],
     [Invoked "task_0"]).
Proof.
  intros _ Hfail. rewrite execute_parallel_no_callback. simpl.
  by rewrite Hfail.
Qed.

Lemma failing_unit_of_work_is_not_retried_witness :
  0 < max_concurrent default_config
  ∧ (∀ args round, always_failing args round = Throws "boom")
  ∧ enable_retries default_config = true
  ∧ max_retries default_config = 2
  ∧ run (execute_parallel default_config [always_failing] None None)
    = (Ok [ {| task_id := "task_0"; status := FAILED; result := None;
               error := Some (ErrorStr "boom"); retry_count := 0 |} ],
       [Invoked "task_0"]).
Proof.
  split; [reflexivity|]. split; [reflexivity|].
  split; [reflexivity|]. split; [reflexivity|].
  apply (failing_unit_of_work_is_not_retried default_config always_failing "boom");
    reflexivity.
Defined.

End Claims_Retry.

Section Claims_Timeout.

(** C4 fails as stated in the Tier 1 path: a Belter that is still running
    at its deadline gets a response with status [FAILED]; the statuses of
    that path have no member whose value is ["timeout"]. *)
Lemma tier1_timeout_is_recorded_as_failed :
  ∃ r,
    run (Hierarchical._execute_belters_parallel no_time_for_belters
           [Hierarchical.BelterAgent true "belter_1" (Some "research")] "task")
    = (Ok [r], [])
    ∧ Hierarchical.status r = Hierarchical.FAILED
    ∧ Hierarchical.error_message r = Some "Timeout after 0s"
    ∧ Hierarchical.TaskStatus_value (Hierarchical.status r)
      ≠ ParallelExec.ExecutionStatus_value ParallelExec.TIMEOUT.
Proof. eexists. split; [by vm_compute|]. by repeat split. Qed.

(** C4, amended.  A unit of work that overruns its deadline never makes
    the batch call raise.  [ParallelExecutor], with a progress callback
    that is absent or does not raise, records status [TIMEOUT] for it, at
    its position; the Tier 1 path of the hierarchical orchestrator
    records a response with status [FAILED] and the message
    "Timeout after <belter_timeout>s". *)
Theorem timeout_is_recorded_not_raised {T : Type}
    (cfg : ParallelExec.ParallelExecutionConfig)
    (tasks : list (ParallelExec.Task T)) (cb : option (ParallelExec.Callback T))
    (i : nat) (task : ParallelExec.Task T)
    (hcfg : Hierarchical.OrchestratorConfig) (bs : list Hierarchical.Belter)
    (j : nat) (b : Hierarchical.Belter) (query : string) :
  0 < ParallelExec.max_concurrent cfg →
  quiet_callback cb →
  tasks !! i = Some task →
  task [] 0 = ParallelExec.Overruns →
  0 < Hierarchical.max_concurrent_agents hcfg →
  bs !! j = Some b →
  (∀ t, Hierarchical.b_execute_task b t = Hierarchical.Overrun) →
  (∃ rs log,
      run (ParallelExec.execute_parallel cfg tasks None cb) = (Ok rs, log)
      ∧ length rs = length tasks
      ∧ rs !! i = Some {| ParallelExec.task_id := task_name i;
                          ParallelExec.status := ParallelExec.TIMEOUT;
                          ParallelExec.result := None;
                          ParallelExec.error :=
                            Some (ParallelExec.TimeoutAfter
                                    (ParallelExec.timeout_seconds cfg));
                          ParallelExec.retry_count := 0 |})
  ∧ (∃ rs log,
      run (Hierarchical._execute_belters_parallel hcfg bs query) = (Ok rs, log)
      ∧ timeout_response hcfg b ∈ rs
      ∧ Hierarchical.status (timeout_response hcfg b) = Hierarchical.FAILED).
Proof.
  intros _ Hq Hi Hlate Hc Hj Hb. split.
  - destruct (execute_parallel_quiet cfg tasks None cb Hq) as [log Hrun].
    eexists _, log. split; [exact Hrun|]. simpl.
    rewrite zip_replicate_r, length_imap, length_fmap. split; [done|].
    rewrite list_lookup_imap, list_lookup_fmap, Hi. simpl. by rewrite Hlate.
  - destruct (tier1_overrun_recorded hcfg bs query j b Hc Hj Hb) as (rs & log & ? & ?).
    by exists rs, log.
Qed.

Lemma timeout_is_recorded_not_raised_witness :
  (∃ rs log,
      run (ParallelExec.execute_parallel ParallelExec.default_config
             [always_failing; always_late] None None) = (Ok rs, log)
      ∧ length rs = 2%nat
      ∧ ParallelExec.status <$> rs !! 1%nat = Some ParallelExec.TIMEOUT)
  ∧ (∃ rs log,
      run (Hierarchical._execute_belters_parallel no_time_for_belters
             [Hierarchical.BelterAgent true "belter_1" (Some "research")] "task")
      = (Ok rs, log)
      ∧ Hierarchical.status <$> rs !! 0%nat = Some Hierarchical.FAILED).
Proof.
  destruct (timeout_is_recorded_not_raised (T := string)
              ParallelExec.default_config [always_failing; always_late] None
              1 always_late no_time_for_belters
              [Hierarchical.BelterAgent true "belter_1" (Some "research")] 0
              (Hierarchical.BelterAgent true "belter_1" (Some "research")) "task")
    as [(rs & log & Hrun & Hlen & Hi) (rs' & log' & Hrun' & Hin & Hst)];
    [reflexivity|by intros ? [=]|reflexivity|reflexivity|reflexivity|reflexivity
    |reflexivity|].
  split.
  - exists rs, log. split; [exact Hrun|]. split; [exact Hlen|]. by rewrite Hi.
  - exists rs', log'. split; [exact Hrun'|].
    vm_compute in Hrun'. injection Hrun' as <- <-. reflexivity.
Defined.

End Claims_Timeout.

Section Claims_Status.
Import Phased.

(** C2 fails as stated: a run whose only phase reports a partial result
    has no result with status "success", and its overall status is
    "partial", not "failed". *)
Lemma run_without_success_is_not_failed :
  ∃ r log,
    Py.run (run "code_analysis" partial_executor (λ _, Ok one_phase)
              "20250101_000000" "/path/to/project" "quick" None)
    = (Ok r, log)
    ∧ status <$> phase_results r = ["partial"]
    ∧ Forall (λ pr, status pr ≠ "success") (phase_results r)
    ∧ run_status r = "partial"
    ∧ run_status r ≠ "failed".
Proof.
  eexists _, _. split; [by vm_compute|]. cbn [phase_results run_status].
  split; [done|]. split; [|done]. by repeat constructor.
Qed.

(** C2, amended.  Every run returns a result.  When the phases are
    obtained, every phase result has status "success", "partial" or
    "failed", and the overall status is "success" exactly when every
    phase result is "success" (in particular when no phase ran),
    "failed" exactly when some result is "failed" and none is "success",
    and "partial" exactly in the remaining cases: not all are "success",
    and either one is or none is "failed".  When the phases cannot be
    obtained the status is "failed" and there is no phase result. *)
Theorem overall_status_of_a_run (self_name : string)
    (agent_executor : AgentExecutor)
    (get_workflow_phases : string → Res (list WorkflowPhase))
    (stamp project mode : string) (agents : option (list string)) :
  ∃ r log,
    Py.run (run self_name agent_executor get_workflow_phases stamp project
              mode agents) = (Ok r, log)
    ∧ (∀ phases, get_workflow_phases mode = Ok phases →
         Forall (λ s, s ∈ ["success"; "partial"; "failed"]) (status <$> phase_results r)
         ∧ (run_status r = "success"
            ↔ Forall (λ s, s = "success") (status <$> phase_results r))
         ∧ (run_status r = "failed"
            ↔ Exists (λ s, s = "failed") (status <$> phase_results r)
              ∧ Forall (λ s, s ≠ "success") (status <$> phase_results r))
         ∧ (run_status r = "partial"
            ↔ ¬ Forall (λ s, s = "success") (status <$> phase_results r)
              ∧ (Exists (λ s, s = "success") (status <$> phase_results r)
                 ∨ ¬ Exists (λ s, s = "failed") (status <$> phase_results r))))
    ∧ (∀ e, get_workflow_phases mode = Raise e →
         run_status r = "failed" ∧ phase_results r = []).
Proof.
  destruct (get_workflow_phases mode) as [phases|e] eqn:Hph.
  - destruct (run_completes self_name agent_executor get_workflow_phases stamp
                project mode agents phases Hph) as (r & log & Hrun & Hknown & Hst).
    exists r, log. split; [done|]. split; [|done].
    intros _ _. split; [by apply Forall_fmap|]. rewrite Hst.
    split; [apply overall_status_success|].
    split; [apply overall_status_failed|apply overall_status_partial].
  - eexists _, _. split.
    + unfold Py.run, run, try_catch. rewrite Hph. reflexivity.
    + split; [done|]. by intros _ _.
Qed.

Lemma overall_status_of_a_run_witness :
  ∃ r log,
    Py.run (run "code_analysis" partial_executor (λ _, Ok one_phase)
              "20250101_000000" "/path/to/project" "quick" None) = (Ok r, log)
    ∧ (run_status r = "failed"
       ↔ Exists (λ s, s = "failed") (status <$> phase_results r)
         ∧ Forall (λ s, s ≠ "success") (status <$> phase_results r)).
Proof.
  destruct (overall_status_of_a_run "code_analysis" partial_executor
              (λ _, Ok one_phase) "20250101_000000" "/path/to/project" "quick"
              None)
    as (r & log & Hrun & Hok & _).
  destruct (Hok one_phase eq_refl) as (_ & _ & Hfailed & _).
  by exists r, log.
Defined.

End Claims_Status.

Section Claims_Tiers.
Import Hierarchical.

(** C5.  The Tier 1 results are cut into ceil(N/5) batches, where N is
    their number: every batch holds between one and five results, every
    batch but the last holds five, the batches put end to end are the
    results, so their sizes add up to N; and with the Drummers that
    [_create_agent_swarm] makes for at least N subtasks, exactly one
    synthesis runs for each batch, the [i]-th Drummer on the [i]-th
    batch. *)
Theorem tier2_batches_of_five (cfg : OrchestratorConfig) (late : Z → bool)
    (num_subtasks : Z) (belter_results : list AgentResponse) (task : string) :
  enable_drummer cfg = true →
  len belter_results ≤ num_subtasks →
  len (belter_groups belter_results) = (len belter_results + 4) `div` 5
  ∧ len belter_results ≤ 5 * len (belter_groups belter_results) < len belter_results + 5
  ∧ Forall (λ g, 1 ≤ len g ≤ 5) (belter_groups belter_results)
  ∧ (∀ i g, belter_groups belter_results !! i = Some g →
            (S i < length (belter_groups belter_results))%nat → len g = 5)
  ∧ concat (belter_groups belter_results) = belter_results
  ∧ sum_list (length <$> belter_groups belter_results) = length belter_results
  ∧ ∃ agents,
      run (_create_agent_swarm cfg late num_subtasks) = (Ok agents, [])
      ∧ run (_execute_drummers_parallel (drummers agents) belter_results task)
        = (Ok (imap (λ i g, drummer_response (drummer_name i) g)
                 (belter_groups belter_results)),
           imap (λ i _, Worked (drummer_name i)) (belter_groups belter_results)).
Proof.
  intros Hed Hnum.
  assert (len (belter_groups belter_results) = (len belter_results + 4) `div` 5) as Hlen.
  { rewrite belter_groups_chunks. unfold len. rewrite chunks_length by done.
    by rewrite Nat2Z.inj_div, Nat2Z.inj_add. }
  assert (concat (belter_groups belter_results) = belter_results) as Hcat.
  { rewrite belter_groups_chunks. by apply chunks_concat. }
  split; [done|]. split.
  { rewrite Hlen.
    pose proof (Z.div_mod (len belter_results + 4) 5 ltac:(lia)).
    pose proof (Z.mod_pos_bound (len belter_results + 4) 5 ltac:(lia)). lia. }
  split.
  { rewrite belter_groups_chunks. eapply Forall_impl; [apply chunks_sizes|].
    intros g Hg. unfold len. simpl in Hg. lia. }
  split.
  { intros i g Hg Hi. rewrite belter_groups_chunks in Hg, Hi. unfold len.
    by rewrite (chunks_full _ _ _ _ Hg Hi). }
  split; [done|]. split.
  { rewrite <- Hcat at 2. generalize (belter_groups belter_results).
    intros l. induction l as [|g l IH]; [done|].
    simpl. rewrite length_app, <- IH. reflexivity. }
  destruct (base_drummers_run cfg late num_subtasks belter_results task [] Hed Hnum)
    as (agents & Hsw & Hrun).
  exists agents. by split.
Qed.

Lemma tier2_batches_of_five_witness :
  len twelve_responses ≤ 12
  ∧ len (belter_groups twelve_responses) = 3
  ∧ length <$> belter_groups twelve_responses = [5; 5; 2]%nat
  ∧ ∃ agents,
      run (_create_agent_swarm twelve_agents (λ _, false) 12) = (Ok agents, [])
      ∧ run (_execute_drummers_parallel (drummers agents) twelve_responses "task")
        = (Ok (imap (λ i g, drummer_response (drummer_name i) g)
                 (belter_groups twelve_responses)),
           [Worked "drummer_1"; Worked "drummer_2"; Worked "drummer_3"]).
Proof.
  assert (len twelve_responses ≤ 12) as Hle by (by vm_compute).
  destruct (tier2_batches_of_five twelve_agents (λ _, false) 12 twelve_responses
              "task" eq_refl Hle) as (Hn & _ & _ & _ & _ & _ & agents & Hsw & Hrun).
  split; [exact Hle|]. split; [exact Hn|]. split; [reflexivity|].
  exists agents. split; [exact Hsw|exact Hrun].
Defined.

End Claims_Tiers.

Section Claims_Tier3.
Import Hierarchical.

(** C6.  With Tier 3 enabled, a positive concurrency limit and a stream
    callback that is absent or does not raise, [execute_task] returns a
    result, and the executive synthesis runs exactly when Tier 2 gave at
    least two results.  For [HierarchicalOrchestrator]: when it runs,
    the Camina works once, as the last event of the run, and its
    response, built from the Tier 2 results and the number of Tier 1
    results, is the executive response of the result; below the
    threshold the Camina does nothing, the executive response is absent
    and the run still returns.  For [DreamCascadeOrchestrator], once its
    provider is found: when Tier 2 gave two results or more the
    executive response is the answer of [RealLLMCaminaAgent] to them and
    the Camina's events are those of that answer; below the threshold
    the Camina does nothing and the executive response is absent. *)
Theorem tier3_runs_iff_two_syntheses (cfg : OrchestratorConfig)
    (late : Z → bool) (task : string) (stream_callback : option StreamCallback)
    (repr_context : Context → string) (provider : Provider)
    (model : option string) :
  enable_camina cfg = true →
  0 < max_concurrent_agents cfg →
  quiet stream_callback →
  (∃ out log,
      run (execute_task cfg (_create_agent_swarm cfg late) task stream_callback)
      = (Ok out, log)
      ∧ (Worked "camina_1" ∈ log ↔ 2 ≤ len (drummer_responses_out out))
      ∧ (is_Some (camina_response out) ↔ 2 ≤ len (drummer_responses_out out))
      ∧ (2 ≤ len (drummer_responses_out out) →
         camina_response out
         = Some (executive_response "camina_1" (drummer_responses_out out)
                   (len (belter_responses_out out)))
         ∧ work_of "camina_1" log = [Worked "camina_1"]
         ∧ last log = Some (Worked "camina_1"))
      ∧ (len (drummer_responses_out out) < 2 →
         camina_response out = None ∧ work_of "camina_1" log = []))
  ∧ (∃ out log,
      run (execute_task cfg
             (DreamCascade_create_agent_swarm repr_context (Ok provider) model cfg late)
             task stream_callback)
      = (Ok out, log)
      ∧ (is_Some (camina_response out) ↔ 2 ≤ len (drummer_responses_out out))
      ∧ (2 ≤ len (drummer_responses_out out) →
         camina_response out
         = Some (fst (cascade_executive_answer provider model "camina_1" task
                        (drummer_responses_out out)))
         ∧ work_of "camina_1" log
           = snd (cascade_executive_answer provider model "camina_1" task
                    (drummer_responses_out out)))
      ∧ (len (drummer_responses_out out) < 2 →
         camina_response out = None ∧ work_of "camina_1" log = [])).
Proof.
  intros Hec Hc Hq. split.
  - destruct (execute_task_answers cfg (_create_agent_swarm cfg late) _
                (belter_answer cfg late)
                (λ _ bs ds, (executive_response "camina_1" ds (len bs),
                             [Worked "camina_1"]))
                (λ log, eq_refl)) with (task := task) (cb := stream_callback)
      as (out & before & Hbefore & _ & Hrun).
    + intros t i b. by apply (base_belter_answers cfg late (num_agents cfg) t i b _ []).
    + intros t i. apply belter_answer_apart.
    + by apply (base_drummers_keep cfg late (num_agents cfg) _ []).
    + intros He Hlen.
      destruct (base_camina_answers cfg late (num_agents cfg) _ [] eq_refl He Hlen)
        as (c & Hcam & Hy).
      exists c. split; [done|]. intros t bs ds. apply Hy.
    + done.
    + lia.
    + rewrite Hec in Hrun. simpl in Hrun.
      destruct (Z.leb_spec 2 (len (drummer_responses_out out))) as [H2|H2];
        destruct Hrun as [Hrun Hcam]; eexists out, _; (split; [exact Hrun|]).
      * split; [split; [done|intros _; apply elem_of_app; right; by left]|].
        split; [by rewrite Hcam|]. split; [|lia]. intros _. split; [done|].
        rewrite work_of_app, Hbefore. split; [done|]. apply last_snoc.
      * split.
        { split; [|lia]. intros Hin.
          assert (Worked "camina_1" ∈ work_of "camina_1" before) as Hw
            by (by apply list_elem_of_filter).
          rewrite Hbefore in Hw. by apply elem_of_nil in Hw. }
        split; [rewrite Hcam; split; [by intros [? [=]]|lia]|].
        split; [lia|]. done.
  - destruct (execute_task_answers cfg
                (DreamCascade_create_agent_swarm repr_context (Ok provider) model cfg late)
                (cascade_agents repr_context provider model cfg late (num_agents cfg))
                (cascade_belter_answer repr_context provider model cfg late)
                (λ t _ ds, cascade_executive_answer provider model "camina_1" t ds))
      with (task := task) (cb := stream_callback)
      as (out & before & Hbefore & _ & Hrun).
    + apply cascade_swarm_created.
    + intros t i b. apply cascade_belter_answers.
    + intros t i. apply cascade_belter_answer_apart.
    + apply cascade_drummers_keep.
    + intros He Hlen.
      destruct (cascade_camina_answers repr_context provider model cfg late
                  (num_agents cfg) He Hlen) as (c & Hcam & Hy).
      exists c. split; [done|]. intros t bs ds _. apply Hy.
    + done.
    + lia.
    + rewrite Hec in Hrun. simpl in Hrun.
      destruct (Z.leb_spec 2 (len (drummer_responses_out out))) as [H2|H2];
        destruct Hrun as [Hrun Hcam]; eexists out, _; (split; [exact Hrun|]).
      * split; [by rewrite Hcam|]. split; [|lia]. intros _. split; [done|].
        rewrite work_of_app, Hbefore. simpl. apply work_of_own, llm_answer_own.
      * split; [rewrite Hcam; split; [by intros [? [=]]|lia]|].
        split; [lia|]. done.
Qed.

Lemma tier3_runs_iff_two_syntheses_witness :
  (∃ out log,
      run (execute_task twelve_agents (_create_agent_swarm twelve_agents (λ _, false))
             "task" None) = (Ok out, log)
      ∧ len (belter_responses_out out) = 12
      ∧ len (drummer_responses_out out) = 3
      ∧ camina_response out
        = Some (executive_response "camina_1" (drummer_responses_out out) 12)
      ∧ last log = Some (Worked "camina_1"))
  ∧ (∃ out log,
      run (execute_task default_config (_create_agent_swarm default_config (λ _, false))
             "task" None) = (Ok out, log)
      ∧ len (belter_responses_out out) = 5
      ∧ len (drummer_responses_out out) = 1
      ∧ camina_response out = None
      ∧ Worked "camina_1" ∉ log).
Proof.
  split.
  - destruct (tier3_runs_iff_two_syntheses twelve_agents (λ _, false) "task" None
                (λ _, "{}") answering_provider None eq_refl eq_refl)
      as [(out & log & Hrun & _ & _ & Hruns & _) _]; [by intros ? [=]|].
    exists out, log. split; [exact Hrun|].
    assert (len (belter_responses_out out) = 12 ∧ len (drummer_responses_out out) = 3)
      as [Hb Hn].
    { vm_compute in Hrun. injection Hrun as <- _. split; reflexivity. }
    split; [exact Hb|]. split; [exact Hn|].
    destruct Hruns as (Hcam & _ & Hlast); [rewrite Hn; by vm_compute|].
    rewrite Hb in Hcam. split; [exact Hcam|exact Hlast].
  - destruct (tier3_runs_iff_two_syntheses default_config (λ _, false) "task" None
                (λ _, "{}") answering_provider None eq_refl eq_refl)
      as [(out & log & Hrun & Hiff & _ & _ & Hbelow) _]; [by intros ? [=]|].
    exists out, log. split; [exact Hrun|].
    assert (len (belter_responses_out out) = 5 ∧ len (drummer_responses_out out) = 1)
      as [Hb Hn].
    { vm_compute in Hrun. injection Hrun as <- _. split; reflexivity. }
    split; [exact Hb|]. split; [exact Hn|].
    destruct Hbelow as [Hcam _]; [rewrite Hn; by vm_compute|].
    split; [exact Hcam|]. intros Hin. apply Hiff in Hin. rewrite Hn in Hin.
    by vm_compute in Hin.
Defined.

End Claims_Tier3.

Section Claims_Synthesis.
Import Hierarchical.

(** C9 fails as stated: handed a batch that holds one failed response
    and no completed one, [DrummerAgent] does its synthesis work and
    returns a response with status [COMPLETED]. *)
Lemma drummer_synthesizes_a_failed_batch :
  context_get failed_batch_task belter_responses [] = [failed_belter_response]
  ∧ status failed_belter_response = FAILED
  ∧ ∃ r,
      run (DrummerAgent_execute_task "drummer_1" failed_batch_task)
      = (Ok r, [Worked "drummer_1"])
      ∧ status r = COMPLETED
      ∧ content r = "Drummer synthesis of 1 Belter responses".
Proof.
  split; [reflexivity|]. split; [reflexivity|].
  eexists. split; [by vm_compute|]. by split.
Qed.

(** C9, amended.  [DrummerAgent] fails a synthesis exactly when its batch
    is empty: it then returns status [FAILED] with the message
    "No Belter responses provided for synthesis" and does no synthesis
    work.  A batch that is not empty is synthesized whatever the statuses
    in it, and the result is [COMPLETED].  [RealLLMDrummerAgent] has no
    such check: on a batch without any completed response it still asks
    its provider, with empty findings, and its result is [COMPLETED]
    when the provider answers and [FAILED] when it raises. *)
Theorem synthesis_fails_only_on_an_empty_batch (id : string) (task : AgentTask)
    (model : option string) (provider : Provider) :
  (context_get task belter_responses [] = [] →
     run (DrummerAgent_execute_task id task)
     = (Ok (_create_response id "" FAILED [] None
              (Some "No Belter responses provided for synthesis")), []))
  ∧ (context_get task belter_responses [] ≠ [] →
     run (DrummerAgent_execute_task id task)
     = (Ok (drummer_response id (context_get task belter_responses [])),
        [Worked id])
     ∧ status (drummer_response id (context_get task belter_responses []))
       = COMPLETED)
  ∧ (∀ ctx,
       context task = Some ctx →
       Forall (λ r, status r ≠ COMPLETED) (default [] (belter_responses ctx)) →
       run (RealLLMDrummerAgent_execute_task model provider id task)
       = match model_or_select provider model
                 (drummer_user_prompt (prompt task) "") with
         | Raise e =>
             (Ok (_create_response id "" FAILED [] None (Some (str_of_exn e))), [])
         | Ok m =>
             (Ok match chat provider (drummer_user_prompt (prompt task) "")
                         drummer_system_prompt m with
                 | Ok answer => _create_response id answer COMPLETED [] None None
                 | Raise e =>
                     _create_response id "" FAILED [] None (Some (str_of_exn e))
                 end,
              [Chatted id (drummer_user_prompt (prompt task) "")])
         end).
Proof.
  split; [apply drummer_empty|]. split.
  - intros Hne. split; [by apply drummer_nonempty|done].
  - intros ctx Hctx Hnone.
    exact (realllm_drummer_none_completed model provider id task ctx Hctx Hnone).
Qed.

Lemma synthesis_fails_only_on_an_empty_batch_witness :
  (context_get empty_batch_task belter_responses [] = []
   ∧ run (DrummerAgent_execute_task "drummer_1" empty_batch_task)
     = (Ok (_create_response "drummer_1" "" FAILED [] None
              (Some "No Belter responses provided for synthesis")), []))
  ∧ (context_get failed_batch_task belter_responses [] ≠ []
     ∧ run (DrummerAgent_execute_task "drummer_1" failed_batch_task)
       = (Ok (drummer_response "drummer_1" [failed_belter_response]),
          [Worked "drummer_1"]))
  ∧ (∃ r prompt,
       run (RealLLMDrummerAgent_execute_task None answering_provider "drummer_1"
              failed_batch_task) = (Ok r, [Chatted "drummer_1" prompt])
       ∧ status r = COMPLETED).
Proof.
  split; [|split].
  - split; [reflexivity|].
    apply (synthesis_fails_only_on_an_empty_batch "drummer_1" empty_batch_task
             None answering_provider). reflexivity.
  - split; [discriminate|].
    apply (synthesis_fails_only_on_an_empty_batch "drummer_1" failed_batch_task
             None answering_provider). discriminate.
  - destruct (synthesis_fails_only_on_an_empty_batch "drummer_1" failed_batch_task
                None answering_provider) as (_ & _ & Hllm).
    eexists _, _. split.
    + rewrite (Hllm _ eq_refl); [reflexivity|].
      repeat constructor. discriminate.
    + reflexivity.
Defined.

End Claims_Synthesis.

Section Claims_FromDict.
Import DataModels.

(** C10 fails as stated: [from_dict] raises on a dictionary, not [None],
    whose [execution_time] is [None]. *)
Lemma from_dict_raises_on_a_null_number :
  from_dict int_float_of_int int_float_of_str int_float_truth 0
    (Some {[ "execution_time" := PyNone ]})
  = Raise (Exception
             "float() argument must be a string or a real number, not 'NoneType'").
Proof. by vm_compute. Qed.

(** C10, amended.  [from_dict] raises when its input is [None], and on a
    dictionary exactly when [float()] raises on the value of
    [execution_time] or of [cost] (as it does on [None] and on a text
    that is no number).  When it returns, a status string that is not the
    value of any member is read as [COMPLETED], so also a string meant as
    a failure, and an agent type string that is not the value of any
    member is read as [WORKER]. *)
Theorem from_dict_fails_only_on_numbers {F : Type}
    (float_of_int : Z → Res F) (float_of_str : string → Res F)
    (float_truth : F → bool) (zero : F) (d : gmap string PyValue) :
  from_dict float_of_int float_of_str float_truth zero None
  = Raise (Exception "AgentResult.from_dict requires data")
  ∧ ((∃ r, from_dict float_of_int float_of_str float_truth zero (Some d) = Ok r)
     ↔ (∃ t c,
          float float_of_int float_of_str (get d "execution_time" (PyFloat zero)) = Ok t
          ∧ float float_of_int float_of_str (get d "cost" (PyFloat zero)) = Ok c))
  ∧ (∀ r, from_dict float_of_int float_of_str float_truth zero (Some d) = Ok r →
       (∀ s, d !! "status" = Some (PyStr s) → (∀ m, TaskStatus_value m ≠ s) →
             status r = COMPLETED)
       ∧ (∀ s, d !! "agent_type" = Some (PyStr s) → (∀ m, AgentType_value m ≠ s) →
               agent_type r = WORKER)).
Proof.
  split; [done|]. split; [apply from_dict_ok_iff|]. apply from_dict_coerces.
Qed.

Lemma from_dict_fails_only_on_numbers_witness :
  ∃ r,
    from_dict int_float_of_int int_float_of_str int_float_truth 0
      (Some (<["status" := PyStr "FAILED"]> {[ "agent_type" := PyStr "belter" ]}))
    = Ok r
    ∧ status r = COMPLETED ∧ agent_type r = WORKER.
Proof.
  destruct (from_dict_fails_only_on_numbers int_float_of_int int_float_of_str
              int_float_truth 0
              (<["status" := PyStr "FAILED"]> {[ "agent_type" := PyStr "belter" ]}))
    as (_ & Hok & Hco).
  destruct (proj2 Hok) as [r Hr]; [by exists 0, 0|].
  exists r. split; [exact Hr|]. destruct (Hco r Hr) as [Hs Ha]. split.
  - apply (Hs "FAILED"); [reflexivity|by intros []].
  - apply (Ha "belter"); [reflexivity|by intros []].
Defined.

End Claims_FromDict.

Section Claims_Decompose.
Import Decomposition.

(** C7 fails as stated: asked for 19 subtasks with bounds 3 and 20, and no
    provider, [decompose_task] returns 19 subtasks of which the fourth and
    the last are the same filler. *)
Lemma padding_repeats_a_filler :
  ∃ d,
    run (decompose_task nineteen_subtasks "X" None None) = (Ok d, [])
    ∧ len (subtasks d) = 19
    ∧ subtasks d !! 3%nat = Some "Conduct supplementary research on: X"
    ∧ subtasks d !! 18%nat = Some "Conduct supplementary research on: X"
    ∧ ¬ NoDup (subtasks d).
Proof.
  eexists. split; [by vm_compute|]. cbn [subtasks].
  split; [reflexivity|]. split; [reflexivity|]. split; [reflexivity|].
  intros Hnd.
  assert (3 = 18)%nat as Heq; [|discriminate Heq].
  by apply (NoDup_lookup _ 3%nat 18%nat "Conduct supplementary research on: X" Hnd).
Qed.

(** C7, amended.  With padding and validation enabled and a target
    [T ≥ 1] between [min_subtasks] and [max_subtasks], [decompose_task]
    returns exactly [min(max(T, min_subtasks), max_subtasks) = T]
    subtasks, none of them empty.  They are the validated subtasks, which
    are pairwise distinct and at least ten characters long once stripped,
    either cut to their first [T] or followed by fillers; the [i]-th
    filler is entry [i mod 15] of the bank of fifteen, so fillers repeat
    from the sixteenth on.  Without a provider and with at most fifteen
    fillers the returned subtasks are pairwise distinct. *)
Theorem decompose_returns_the_target_count (cfg : DecompositionConfig)
    (task : string) (context : option (list (string * string)))
    (llm_provider : option Provider) (T : Z) :
  enable_padding cfg = true →
  enable_validation cfg = true →
  target_agent_count cfg = Some T →
  0 < T →
  min_subtasks cfg ≤ T ≤ max_subtasks cfg →
  ∃ d log validated,
    run (decompose_task cfg task context llm_provider) = (Ok d, log)
    ∧ len (subtasks d) = Z.min (Z.max T (min_subtasks cfg)) (max_subtasks cfg)
    ∧ Forall (λ s, s ≠ "") (subtasks d)
    ∧ NoDup validated
    ∧ Forall long_enough validated
    ∧ (T ≤ len validated ∧ subtasks d = take (Z.to_nat T) validated
       ∨ len validated < T
         ∧ subtasks d = validated ++ _get_generic_subtasks task (T - len validated))
    ∧ (∀ i, (i < Z.to_nat (T - len validated))%nat →
            _get_generic_subtasks task (T - len validated) !! i
            = generic_bank task !! (i `mod` 15)%nat)
    ∧ (llm_provider = None → T - len validated ≤ 15 → NoDup (subtasks d)).
Proof.
  intros Hpad Hval Htarget Hpos Hrange.
  destruct (decompose_task_shape cfg task context llm_provider)
    as (pre & d & log & Hrun & _ & Hsub & Hpre & _).
  set (validated := _validate_subtasks pre task).
  destruct (validate_spec pre task) as (Hsl & Hnd & Hlong). fold validated in Hsl, Hnd, Hlong.
  assert (subtasks d = _pad_to_target_count cfg validated task) as Hd.
  { rewrite Hsub. unfold finish. rewrite Hpad, Hval, Htarget.
    destruct (Z.eqb_spec T 0); [lia|]. done. }
  exists d, log, validated. split; [done|].
  assert (Forall (λ s, s ≠ "") validated) as Hne.
  { eapply Forall_impl; [exact Hlong|]. apply long_enough_nonempty. }
  destruct (pad_spec cfg validated task T Htarget Hpos) as [[Hle Hp]|[Hlt Hp]];
    rewrite Hp in Hd.
  - split.
    { rewrite Hd. unfold len in *. rewrite length_take. lia. }
    split; [rewrite Hd; by apply Forall_take|].
    split; [done|]. split; [done|]. split; [by left|].
    split; [intros i Hi; lia|].
    intros _ _. rewrite Hd. eapply sublist_NoDup; [exact Hnd|apply sublist_take].
  - split.
    { rewrite Hd. unfold len in *.
      rewrite length_app, length_generic_subtasks. lia. }
    split.
    { rewrite Hd. apply Forall_app. split; [done|apply generic_subtasks_nonempty]. }
    split; [done|]. split; [done|]. split; [by right|].
    split; [intros i Hi; by apply generic_subtasks_lookup|].
    intros -> Hfew. rewrite Hd.
    rewrite generic_subtasks_take by lia.
    eapply sublist_NoDup; [apply (banks_distinct task)|].
    apply sublist_app; [|apply sublist_take].
    etrans; [exact Hsl|]. rewrite Hpre by (by left).
    apply slice_to_sublist.
Qed.

Lemma decompose_returns_the_target_count_witness :
  ∃ d,
    run (decompose_task five_subtasks
           "Analyze the impact of artificial intelligence on healthcare" None None)
    = (Ok d, [])
    ∧ len (subtasks d) = 5
    ∧ NoDup (subtasks d).
Proof.
  destruct (decompose_returns_the_target_count five_subtasks
              "Analyze the impact of artificial intelligence on healthcare"
              None None 5 eq_refl eq_refl eq_refl eq_refl)
    as (d & log & validated & Hrun & Hlen & _ & _ & _ & Hshape & _ & Hnd).
  { split; by vm_compute. }
  exists d.
  assert (log = []) as ->.
  { pose proof Hrun as Hrun'. vm_compute in Hrun'. by injection Hrun' as _ <-. }
  split; [exact Hrun|]. split; [exact Hlen|].
  apply Hnd; [done|]. unfold len. lia.
Defined.

(** C8 fails as stated: on the empty task string [decompose_task] returns
    a decomposition, three templates with nothing after their colon, and
    no error. *)
Lemma empty_task_is_decomposed :
  run (decompose_task default_config "" None None)
  = (Ok {| original_task := "";
           subtasks := [ "Research and gather relevant information about: ";
                         "Analyze key aspects and factors related to: ";
                         "Identify challenges and opportunities for: " ];
           decomposition_metadata :=
             {| method := "template"; original_count := 3; padded := true |} |},
     []).
Proof. by vm_compute. Qed.

(** C8, amended.  [decompose_task] returns a decomposition of the task
    it was given for every task string, the empty one included, and never
    an error; when there is no provider, or the provider raises, the
    subtasks are those of the template decomposition, validated and
    padded as the configuration asks. *)
Theorem decompose_never_fails (cfg : DecompositionConfig) (task : string)
    (context : option (list (string * string)))
    (llm_provider : option Provider) :
  ∃ d log,
    run (decompose_task cfg task context llm_provider) = (Ok d, log)
    ∧ original_task d = task
    ∧ (provider_unavailable task context llm_provider →
       subtasks d = finish cfg task (_template_decompose cfg task)).
Proof.
  destruct (decompose_task_shape cfg task context llm_provider)
    as (pre & d & log & Hrun & Htask & Hsub & Hpre & _).
  exists d, log. split; [done|]. split; [done|].
  intros Hun. by rewrite Hsub, (Hpre Hun).
Qed.

Lemma decompose_never_fails_witness :
  ∃ d log,
    run (decompose_task default_config "task" None
           (Some (λ _, Raise (Exception "provider down")))) = (Ok d, log)
    ∧ subtasks d = [ "Research and gather relevant information about: task";
                     "Analyze key aspects and factors related to: task";
                     "Identify challenges and opportunities for: task" ].
Proof.
  destruct (decompose_never_fails default_config "task" None
              (Some (λ _, Raise (Exception "provider down"))))
    as (d & log & Hrun & _ & Hsub).
  exists d, log. split; [exact Hrun|]. rewrite Hsub; [reflexivity|].
  right. by eexists _, _.
Defined.

End Claims_Decompose.
